(** * Settings tab router, welcome view and documentation command

    A shallow embedding of
    - [src/core/controller/commands/generateDocsWithCline.ts],
    - [webview-ui/src/components/welcome/WelcomeView.tsx] (the welcome view
      and the settings view that share the file),
    together with the properties of the tab registry, the tab router and the
    outbound calls.

    React state ([useState]) is a record that every handler takes and
    returns; the browser's event loop (animation frames, timers, the resize
    observer) is a list of pending callbacks inside that record, advanced by
    explicit events. *)

From Stdlib Require Import String Ascii List Bool QArith Lia.
From stdpp Require Import base option list strings gmap.
Import ListNotations.

Open Scope string_scope.
Open Scope list_scope.

(** ** JavaScript values and objects *)

Module Js.

(** The line feed written [\n] inside a template literal. *)
Definition nl : string := String (ascii_of_nat 10) EmptyString.

(** Truthiness of a [string | undefined]: [undefined] and the empty string
    are falsy, every other string (also ["false"]) is truthy. *)
Definition truthy (v : option string) : bool :=
  match v with
  | None => false
  | Some s => negb (String.eqb s EmptyString)
  end.

(** Truthiness of a [boolean | undefined]. *)
Definition truthy_bool (v : option bool) : bool :=
  match v with
  | None => false
  | Some b => b
  end.

(** The properties every object literal inherits from [Object.prototype]:
    the standard methods and the legacy accessors browsers ship. *)
Definition object_prototype_functions : list string :=
  [ "constructor"; "hasOwnProperty"; "isPrototypeOf";
    "propertyIsEnumerable"; "toLocaleString"; "toString"; "valueOf";
    "__defineGetter__"; "__defineSetter__";
    "__lookupGetter__"; "__lookupSetter__" ].

(** What a property read [obj[key]] on an object literal with own
    properties of type [A] can produce. *)
Inductive Value (A : Type) : Type :=
| Undefined
| Own (a : A)
| Builtin (name : string)
| ObjectPrototype.
Arguments Undefined {A}.
Arguments Own {A} a.
Arguments Builtin {A} name.
Arguments ObjectPrototype {A}.

(** [Object.prototype[key]]. *)
Definition prototype_get {A} (key : string) : Value A :=
  if bool_decide (key ∈ object_prototype_functions) then Builtin key
  else if String.eqb key "__proto__" then ObjectPrototype
  else Undefined.

(** [obj[key]]: the own property when there is one, the inherited one
    otherwise. *)
Definition get {A} (obj : gmap string A) (key : string) : Value A :=
  match obj !! key with
  | Some a => Own a
  | None => prototype_get key
  end.

(** [!v] is [true] only for [undefined] here: components, functions and
    objects are truthy. *)
Definition is_truthy {A} (v : Value A) : bool :=
  match v with
  | Undefined => false
  | _ => true
  end.

(** [s.includes(sub)]. *)
Definition includes (s sub : string) : Prop :=
  ∃ pre post, s = pre +:+ sub +:+ post.

(** The result of awaiting a remote call. *)
Inductive Settled : Type :=
| Fulfilled
| Rejected (err : string).

(** One [console.error(label, err)] line. *)
Record LogLine := { label : string; detail : string }.

End Js.

(** ** generateDocsWithCline.ts *)

Module GenerateDocs.

Record Selection := {
  fileMention : string;
  language : string;
  content : string;
}.

Record CommandContext := { selection : Selection }.

(** Modelled from the spec: the class [Controller] is imported from
    [@/core/controller] and is not among the sources. The command only
    calls its method [initTask]; the controller is represented by the
    prompts that method has received, oldest first. *)
Record Controller := { initTaskCalls : list string }.

Definition initTask (prompt : string) (controller : Controller) : Controller :=
  {| initTaskCalls := initTaskCalls controller ++ [prompt] |}.

Definition fence : string := "```".

(** The template literal of the command. *)
Definition prompt_of (context : CommandContext) : string :=
  let sel := selection context in
  "Generate documentation for the following code from " +:+ fileMention sel
    +:+ " in Vietnamese:" +:+ Js.nl +:+ Js.nl
    +:+ fence +:+ language sel +:+ Js.nl
    +:+ content sel +:+ Js.nl +:+ fence.

Definition generateDocsWithCline (controller : Controller) (context : CommandContext)
  : Controller :=
  let prompt := prompt_of context in
  initTask prompt controller.

End GenerateDocs.

(** ** WelcomeView.tsx, first component: the welcome view *)

Module Welcome.

Record EmptyRequest := { }.
Record BooleanRequest := { value : bool }.

(** [useState] cells of the view and the console it logs to. *)
Record View := {
  apiErrorMessage : option string;
  showApiOptions : bool;
  console : list Js.LogLine;
}.

Definition console_error (label detail : string) (v : View) : View :=
  {| apiErrorMessage := apiErrorMessage v;
     showApiOptions := showApiOptions v;
     console := console v ++ [ {| Js.label := label; Js.detail := detail |} ] |}.

(** The two [useState] cells, without the console. *)
Definition ui (v : View) : option string * bool :=
  (apiErrorMessage v, showApiOptions v).

Section Client.

(** The generated RPC stubs of [@/services/grpc-client] are outside the
    sources: how the host settles each call is a parameter. *)
Variable accountLoginClicked : EmptyRequest → Js.Settled.
Variable setWelcomeViewCompleted : BooleanRequest → Js.Settled.

(** [promise.catch(err => console.error(..., err))]. *)
Definition handleLogin (v : View) : View :=
  match accountLoginClicked Build_EmptyRequest with
  | Js.Fulfilled => v
  | Js.Rejected err => console_error "Failed to get login URL:" err v
  end.

(** [try { await ... } catch (error) { console.error(..., error) }]. *)
Definition handleSubmit (v : View) : View :=
  match setWelcomeViewCompleted {| value := true |} with
  | Js.Fulfilled => v
  | Js.Rejected error =>
      console_error "Failed to update API configuration or complete welcome view:" error v
  end.

End Client.

End Welcome.

(** ** WelcomeView.tsx, second component: the settings view *)

Module Settings.

Inductive LucideIcon : Type :=
  CheckCheck | FlaskConical | Info | SlidersHorizontal
| SquareMousePointer | SquareTerminal | Wrench.

Inductive SectionComponent : Type :=
  AboutSection | ApiConfigurationSection | BrowserSettingsSection
| DebugSection | FeatureSettingsSection | GeneralSettingsSection
| TerminalSettingsSection.

(** Styles for the tab system. *)
Definition settingsTabsContainer : string :=
  "flex flex-1 overflow-hidden [&.narrow_.tab-label]:hidden".
Definition settingsTabList : string :=
  "w-48 data-[compact=true]:w-12 flex-shrink-0 flex flex-col overflow-y-auto overflow-x-hidden border-r border-[var(--vscode-sideBar-background)]".
Definition settingsTabTrigger : string :=
  "whitespace-nowrap overflow-hidden min-w-0 h-12 px-4 py-3 box-border flex items-center border-l-2 border-transparent text-[var(--vscode-foreground)] opacity-70 bg-transparent hover:bg-[var(--vscode-list-hoverBackground)] data-[compact=true]:w-12 data-[compact=true]:p-4 cursor-pointer".
Definition settingsTabTriggerActive : string :=
  "opacity-100 border-l-2 border-l-[var(--vscode-focusBorder)] border-t-0 border-r-0 border-b-0 bg-[var(--vscode-list-activeSelectionBackground)]".

(** Tab definitions. [hidden] is optional in the interface: [None] is a
    descriptor written without the field. *)
Record SettingsTab := {
  id : string;
  name : string;
  tooltipText : string;
  headerText : string;
  icon : LucideIcon;
  hidden : option bool;
}.

(** [getSettingsTabs], with the module constant [IS_DEV]
    ([process.env.IS_DEV], a string or [undefined]) made an argument. *)
Definition getSettingsTabs (IS_DEV : option string) (t : string → string)
  : list SettingsTab :=
  [ {| id := "api-config";
       name := t "settings.tabs.api_configuration";
       tooltipText := t "settings.tabs.api_configuration";
       headerText := t "settings.tabs.api_configuration";
       icon := SlidersHorizontal; hidden := None |};
    {| id := "features";
       name := t "settings.tabs.features";
       tooltipText := t "settings.tabs.features";
       headerText := t "settings.tabs.features";
       icon := CheckCheck; hidden := None |};
    {| id := "browser";
       name := t "settings.tabs.browser";
       tooltipText := t "settings.tabs.browser";
       headerText := t "settings.tabs.browser";
       icon := SquareMousePointer; hidden := None |};
    {| id := "terminal";
       name := t "settings.tabs.terminal";
       tooltipText := t "settings.tabs.terminal";
       headerText := t "settings.tabs.terminal";
       icon := SquareTerminal; hidden := None |};
    (* Only show in dev mode *)
    {| id := "debug";
       name := t "settings.tabs.debug";
       tooltipText := t "settings.tabs.debug";
       headerText := t "settings.tabs.debug";
       icon := FlaskConical; hidden := Some (negb (Js.truthy IS_DEV)) |};
    {| id := "general";
       name := t "settings.tabs.general";
       tooltipText := t "settings.tabs.general";
       headerText := t "settings.tabs.general";
       icon := Wrench; hidden := None |};
    {| id := "about";
       name := t "settings.tabs.about";
       tooltipText := t "settings.tabs.about";
       headerText := t "settings.tabs.about";
       icon := Info; hidden := None |} ].

(** The translation keys [getSettingsTabs] passes to [t]. *)
Definition tab_label_keys : list string :=
  [ "settings.tabs.api_configuration"; "settings.tabs.features";
    "settings.tabs.browser"; "settings.tabs.terminal";
    "settings.tabs.debug"; "settings.tabs.general"; "settings.tabs.about" ].

(** The section header [renderSectionHeader] builds. *)
Record SectionHeader := { header_icon : LucideIcon; header_text : string }.

Definition renderSectionHeader (IS_DEV : option string) (tabId : string)
  (t : string → string) : option SectionHeader :=
  match List.find (λ tab, bool_decide (id tab = tabId)) (getSettingsTabs IS_DEV t) with
  | None => None
  | Some tab => Some {| header_icon := icon tab; header_text := headerText tab |}
  end.

(** The object literal [TAB_CONTENT_MAP]. *)
Definition TAB_CONTENT_MAP : gmap string SectionComponent :=
  list_to_map
    [ ("api-config", ApiConfigurationSection);
      ("general", GeneralSettingsSection);
      ("features", FeatureSettingsSection);
      ("browser", BrowserSettingsSection);
      ("terminal", TerminalSettingsSection);
      ("about", AboutSection);
      ("debug", DebugSection) ].

(** Modelled from the spec: [ExtensionMessage] is declared in
    [@shared/ExtensionMessage], outside the sources. These are the fields
    [handleMessage] reads; a field that may be absent is an [option]. *)
Record GrpcMessage := { key : option string; value : option string }.
Record GrpcResponse := { message : option GrpcMessage }.
Record ExtensionMessage := { type : string; grpc_response : option GrpcResponse }.
Record MessageEvent := { data : ExtensionMessage }.

Record ResetStateRequest := { global : option bool }.

(** An element's inline style: CSS property to value. *)
Abbreviation Style := (gmap string string).

(** The state of a mounted settings view together with the part of the
    browser it acts on.
    - [activeTab], [isCompactMode]: the two [useState] cells;
    - [document]: the elements [document.getElementById] finds, by id, each
      with its inline style;
    - [scrolledIntoView]: the element [scrollIntoView] was last called on;
    - [clock]: the time in milliseconds;
    - [animationFrames]: the callbacks handed to [requestAnimationFrame] and
      not yet run, oldest first, each closed over its [tabId];
    - [timeouts]: the pending [setTimeout] callbacks, oldest first, each with
      the time it is due and the element it closed over;
    - [checkCompactMode]: the pending call of the debounced function, with
      the time it is due and the width it was last called with;
    - [console]: the lines written with [console.error]. *)
Record World := {
  activeTab : string;
  isCompactMode : bool;
  document : gmap string Style;
  scrolledIntoView : option string;
  clock : nat;
  animationFrames : list string;
  timeouts : list (nat * string);
  checkCompactMode : option (nat * Q);
  console : list Js.LogLine;
}.

(** [RouterState] of the specification: [{ activeId, compact }]. *)
Definition router (w : World) : string * bool :=
  (activeTab w, isCompactMode w).

(** What a user can see: the router state, the styles of the elements and
    the element scrolled to. *)
Definition visible (w : World) : string * bool * gmap string Style * option string :=
  (activeTab w, isCompactMode w, document w, scrolledIntoView w).

Definition setActiveTab (tabId : string) (w : World) : World :=
  {| activeTab := tabId; isCompactMode := isCompactMode w;
     document := document w; scrolledIntoView := scrolledIntoView w;
     clock := clock w; animationFrames := animationFrames w;
     timeouts := timeouts w; checkCompactMode := checkCompactMode w;
     console := console w |}.

Definition setIsCompactMode (compact : bool) (w : World) : World :=
  {| activeTab := activeTab w; isCompactMode := compact;
     document := document w; scrolledIntoView := scrolledIntoView w;
     clock := clock w; animationFrames := animationFrames w;
     timeouts := timeouts w; checkCompactMode := checkCompactMode w;
     console := console w |}.

Definition console_error (label detail : string) (w : World) : World :=
  {| activeTab := activeTab w; isCompactMode := isCompactMode w;
     document := document w; scrolledIntoView := scrolledIntoView w;
     clock := clock w; animationFrames := animationFrames w;
     timeouts := timeouts w; checkCompactMode := checkCompactMode w;
     console := console w ++ [ {| Js.label := label; Js.detail := detail |} ] |}.

(** [requestAnimationFrame(() => ...)] with the closure's [tabId]. *)
Definition requestAnimationFrame (tabId : string) (w : World) : World :=
  {| activeTab := activeTab w; isCompactMode := isCompactMode w;
     document := document w; scrolledIntoView := scrolledIntoView w;
     clock := clock w; animationFrames := animationFrames w ++ [tabId];
     timeouts := timeouts w; checkCompactMode := checkCompactMode w;
     console := console w |}.

(** [element.style.backgroundColor = "transparent"], the body of the
    highlight's [setTimeout] callback. *)
Definition clear_highlight (w : World) (element : string) : World :=
  {| activeTab := activeTab w; isCompactMode := isCompactMode w;
     document := alter (insert "backgroundColor" "transparent") element (document w);
     scrolledIntoView := scrolledIntoView w;
     clock := clock w; animationFrames := animationFrames w;
     timeouts := timeouts w; checkCompactMode := checkCompactMode w;
     console := console w |}.

(** The body of the animation-frame callback of [handleMessage]:
    look the element up, scroll to it, highlight it and set the 1200 ms
    timer that clears the highlight. *)
Definition scroll_fallback (w : World) (tabId : string) : World :=
  match document w !! tabId with
  | None => w
  | Some style =>
      {| activeTab := activeTab w; isCompactMode := isCompactMode w;
         document :=
           <[tabId :=
               <["backgroundColor" := "var(--vscode-textPreformat-background)"]>
                 (<["transition" := "background-color 0.5s ease"]> style)]>
             (document w);
         scrolledIntoView := Some tabId;
         clock := clock w; animationFrames := animationFrames w;
         timeouts := timeouts w ++ [(clock w + 1200, tabId)];
         checkCompactMode := checkCompactMode w;
         console := console w |}
  end.

(** Modelled from the spec: [debounce] is imported from the package
    [debounce] and is not among the sources. A call of the debounced
    function ("debounced (100 ms) before updating compact") replaces the
    pending call, if any, and is due 100 ms later. *)
Definition call_checkCompactMode (width : Q) (w : World) : World :=
  {| activeTab := activeTab w; isCompactMode := isCompactMode w;
     document := document w; scrolledIntoView := scrolledIntoView w;
     clock := clock w; animationFrames := animationFrames w;
     timeouts := timeouts w;
     checkCompactMode := Some (clock w + 100, width);
     console := console w |}.

(** [width < 500] on numbers. *)
Definition width_lt (a b : Q) : bool :=
  match Qcompare a b with
  | Lt => true
  | _ => false
  end.

(** The function handed to [debounce]. *)
Definition checkCompactMode_body (width : Q) (w : World) : World :=
  setIsCompactMode (width_lt width 500) w.

(** A rendered tab of the tab list: a plain [div] inside a [HeroTooltip] in
    compact mode, a [TabTrigger] otherwise. *)
Inductive TabItemKind : Type :=
| HeroTooltipDiv (content : string)
| TabTrigger.

Record TabItem := {
  item_kind : TabItemKind;
  item_key : string;
  className : string;
  data_compact : bool;
  data_testid : string;
  item_value : string;
  item_icon : LucideIcon;
  tab_label : string;
  iconContainerClassName : string;
}.

(** The props [ActiveContent] passes to the section component. *)
Inductive ResetHandler : Type := HandleResetState.

Record Props := {
  props_renderSectionHeader : string → option SectionHeader;
  props_onResetState : option ResetHandler;
  props_version : option string;
}.

(** The React element [<Component {...props} />]; its type is whatever the
    lookup in [TAB_CONTENT_MAP] produced. *)
Record Element := {
  element_type : Js.Value SectionComponent;
  element_props : Props;
}.

Section View.

(** [process.env.IS_DEV], the translation function of [useTranslation] and
    the [version] of [useExtensionState]. *)
Variable IS_DEV : option string.
Variable t : string → string.
Variable version : string.

(** The RPC stub [StateServiceClient.resetState] is outside the sources:
    how the host settles the call is a parameter. *)
Variable resetState : ResetStateRequest → Js.Settled.

Definition SETTINGS_TABS : list SettingsTab := getSettingsTabs IS_DEV t.

(** [targetSection || SETTINGS_TABS[0].id]. *)
Definition initialTab (targetSection : option string) : string :=
  match targetSection with
  | Some s => if Js.truthy (Some s) then s else default EmptyString (id <$> head SETTINGS_TABS)
  | None => default EmptyString (id <$> head SETTINGS_TABS)
  end.

(** The view right after mounting in a page with the given elements. *)
Definition mount (targetSection : option string) (doc : gmap string Style) (now : nat)
  : World :=
  {| activeTab := initialTab targetSection; isCompactMode := true;
     document := doc; scrolledIntoView := None; clock := now;
     animationFrames := []; timeouts := []; checkCompactMode := None;
     console := [] |}.

(** Optimized message handler with early returns. *)
Definition handleMessage (event : MessageEvent) (w : World) : World :=
  let message := data event in
  if negb (bool_decide (type message = "grpc_response")) then w
  else
    let grpcMessage := grpc_response message ≫= Settings.message in
    if negb (bool_decide (grpcMessage ≫= key = Some "scrollToSettings")) then w
    else
      match grpcMessage ≫= value with
      | None => w
      | Some tabId =>
          if negb (Js.truthy (Some tabId)) then w
          else if existsb (λ tab, bool_decide (id tab = tabId)) SETTINGS_TABS
          then setActiveTab tabId w            (* Check if valid tab ID *)
          else requestAnimationFrame tabId w   (* Fallback to element scrolling *)
      end.

(** Memoized reset state handler. *)
Definition handleResetState (resetGlobalState : option bool) (w : World) : World :=
  match resetState {| global := resetGlobalState |} with
  | Js.Fulfilled => w
  | Js.Rejected error => console_error "Failed to reset state:" error w
  end.

(** Update active tab when targetSection changes. *)
Definition targetSection_effect (targetSection : option string) (w : World) : World :=
  if Js.truthy targetSection
  then setActiveTab (default EmptyString targetSection) w
  else w.

(** Simplified tab change handler. *)
Definition handleTabChange (tabId : string) (w : World) : World :=
  setActiveTab tabId w.

(** The [ResizeObserver] callback: only the first entry is read. *)
Definition observer_callback (entries : list Q) (w : World) : World :=
  match entries with
  | [] => w
  | width :: _ => call_checkCompactMode width w
  end.

(** Memoized tab item renderer. *)
Definition renderTabItem (w : World) (tab : SettingsTab) : TabItem :=
  let isActive := bool_decide (activeTab w = id tab) in
  let tabClassName :=
    (if isActive then settingsTabTrigger +:+ " " +:+ settingsTabTriggerActive
     else settingsTabTrigger) +:+ " focus:ring-0" in
  let iconContainerClassName :=
    "flex items-center gap-2 " +:+ (if isCompactMode w then "justify-center" else EmptyString) in
  {| item_kind := if isCompactMode w then HeroTooltipDiv (tooltipText tab) else TabTrigger;
     item_key := id tab;
     className := tabClassName;
     data_compact := isCompactMode w;
     data_testid := "tab-" +:+ id tab;
     item_value := id tab;
     item_icon := icon tab;
     tab_label := name tab;
     iconContainerClassName := iconContainerClassName |}.

(** The children of [TabList]. *)
Definition tab_list (w : World) : list TabItem :=
  renderTabItem w <$> List.filter (λ tab, negb (Js.truthy_bool (hidden tab))) SETTINGS_TABS.

(** Memoized active content component. *)
Definition ActiveContent (w : World) : option Element :=
  let Component := Js.get TAB_CONTENT_MAP (activeTab w) in
  if negb (Js.is_truthy Component) then None
  else
    let props :=
      {| props_renderSectionHeader := λ tabId, renderSectionHeader IS_DEV tabId t;
         props_onResetState :=
           if bool_decide (activeTab w = "debug") then Some HandleResetState else None;
         props_version :=
           if bool_decide (activeTab w = "debug") then None
           else if bool_decide (activeTab w = "about") then Some version else None |} in
    Some {| element_type := Component; element_props := props |}.

(** Timers. One millisecond passes; the [setTimeout] callbacks that are due
    run in the order they were set, then the debounced call if it is due. *)
Definition tick (w : World) : World :=
  let now := S (clock w) in
  let due := filter (λ tm : nat * string, (tm.1 ≤ now)%nat) (timeouts w) in
  let w1 :=
    foldl clear_highlight
      {| activeTab := activeTab w; isCompactMode := isCompactMode w;
         document := document w; scrolledIntoView := scrolledIntoView w;
         clock := now; animationFrames := animationFrames w;
         timeouts := filter (λ tm : nat * string, ¬ (tm.1 ≤ now)%nat) (timeouts w);
         checkCompactMode := checkCompactMode w;
         console := console w |}
      due.*2 in
  match checkCompactMode w1 with
  | Some (deadline, width) =>
      if bool_decide (deadline ≤ now)%nat
      then checkCompactMode_body width
             {| activeTab := activeTab w1; isCompactMode := isCompactMode w1;
                document := document w1; scrolledIntoView := scrolledIntoView w1;
                clock := clock w1; animationFrames := animationFrames w1;
                timeouts := timeouts w1; checkCompactMode := None;
                console := console w1 |}
      else w1
  | None => w1
  end.

(** An animation frame: the callbacks queued so far run in order. *)
Definition frame (w : World) : World :=
  foldl scroll_fallback
    {| activeTab := activeTab w; isCompactMode := isCompactMode w;
       document := document w; scrolledIntoView := scrolledIntoView w;
       clock := clock w; animationFrames := [];
       timeouts := timeouts w; checkCompactMode := checkCompactMode w;
       console := console w |}
    (animationFrames w).

(** What can happen to a mounted view. *)
Inductive Event : Type :=
| Message (event : MessageEvent)
| TabChange (tabId : string)
| TargetSection (targetSection : option string)
| Resize (entries : list Q)
| ResetClicked (resetGlobalState : option bool)
| Frame
| Tick.

Definition step (w : World) (e : Event) : World :=
  match e with
  | Message event => handleMessage event w
  | TabChange tabId => handleTabChange tabId w
  | TargetSection targetSection => targetSection_effect targetSection w
  | Resize entries => observer_callback entries w
  | ResetClicked resetGlobalState => handleResetState resetGlobalState w
  | Frame => frame w
  | Tick => tick w
  end.

Definition run (w : World) (es : list Event) : World := foldl step w es.

(** The inbound message the host sends to navigate: a [grpc_response] whose
    message has key ["scrollToSettings"] and the target as value. *)
Definition navigate (target : string) : MessageEvent :=
  {| data :=
       {| type := "grpc_response";
          grpc_response :=
            Some {| message := Some {| key := Some "scrollToSettings"; value := Some target |} |} |} |}.

End View.

End Settings.

(** ** The outbound remote calls of the two views *)

Module Outbound.

(** The remote calls the two views make: "request login"
    ([handleLogin]), "persist boolean setting" ([handleSubmit]) and
    "reset state" ([handleResetState]). *)
Inductive Call : Type :=
| AccountLoginClicked
| SetWelcomeViewCompleted
| ResetState (resetGlobalState : option bool).

(** The extension host, as far as the views see it: how it settles each
    call. *)
Record Host := {
  accountLoginClicked : Welcome.EmptyRequest → Js.Settled;
  setWelcomeViewCompleted : Welcome.BooleanRequest → Js.Settled;
  resetState : Settings.ResetStateRequest → Js.Settled;
}.

(** How the host settles the request a handler sends. *)
Definition settle (host : Host) (call : Call) : Js.Settled :=
  match call with
  | AccountLoginClicked => accountLoginClicked host Welcome.Build_EmptyRequest
  | SetWelcomeViewCompleted => setWelcomeViewCompleted host {| Welcome.value := true |}
  | ResetState resetGlobalState =>
      resetState host {| Settings.global := resetGlobalState |}
  end.

(** Both views, each with its own state and console. *)
Record Ui := { welcome : Welcome.View; settings : Settings.World }.

(** The handler that makes the call. *)
Definition handler (host : Host) (call : Call) (ui : Ui) : Ui :=
  match call with
  | AccountLoginClicked =>
      {| welcome := Welcome.handleLogin (accountLoginClicked host) (welcome ui);
         settings := settings ui |}
  | SetWelcomeViewCompleted =>
      {| welcome := Welcome.handleSubmit (setWelcomeViewCompleted host) (welcome ui);
         settings := settings ui |}
  | ResetState resetGlobalState =>
      {| welcome := welcome ui;
         settings := Settings.handleResetState (resetState host) resetGlobalState (settings ui) |}
  end.

(** The first argument of the handler's [console.error]. *)
Definition failure_label (call : Call) : string :=
  match call with
  | AccountLoginClicked => "Failed to get login URL:"
  | SetWelcomeViewCompleted => "Failed to update API configuration or complete welcome view:"
  | ResetState _ => "Failed to reset state:"
  end.

(** Everything but the consoles: the [useState] cells of both views, the
    page and the pending callbacks. *)
Definition state (ui : Ui) :=
  (Welcome.ui (welcome ui),
   Settings.visible (settings ui),
   Settings.clock (settings ui),
   Settings.animationFrames (settings ui),
   Settings.timeouts (settings ui),
   Settings.checkCompactMode (settings ui)).

(** The console of the view that makes the call, and the other one. *)
Definition console_of (call : Call) (ui : Ui) : list Js.LogLine :=
  match call with
  | ResetState _ => Settings.console (settings ui)
  | _ => Welcome.console (welcome ui)
  end.

Definition other_console (call : Call) (ui : Ui) : list Js.LogLine :=
  match call with
  | ResetState _ => Welcome.console (welcome ui)
  | _ => Settings.console (settings ui)
  end.

End Outbound.

(** ** Callback queues with repeated entries *)

Module Replay.

(** [doubled l2 l1]: the queue [l2] is the queue [l1] with some of its
    entries queued twice in a row. *)
Inductive doubled {A : Type} : list A → list A → Prop :=
| doubled_nil : doubled [] []
| doubled_same (x : A) (l2 l1 : list A) :
    doubled l2 l1 → doubled (x :: l2) (x :: l1)
| doubled_twice (x : A) (l2 l1 : list A) :
    doubled l2 l1 → doubled (x :: x :: l2) (x :: l1).

(** Two worlds that agree on everything but have some pending callbacks
    queued twice in the first one. *)
Record similar (w2 w1 : Settings.World) : Prop := {
  similar_activeTab : Settings.activeTab w2 = Settings.activeTab w1;
  similar_isCompactMode : Settings.isCompactMode w2 = Settings.isCompactMode w1;
  similar_document : Settings.document w2 = Settings.document w1;
  similar_scrolledIntoView : Settings.scrolledIntoView w2 = Settings.scrolledIntoView w1;
  similar_clock : Settings.clock w2 = Settings.clock w1;
  similar_animationFrames :
    doubled (Settings.animationFrames w2) (Settings.animationFrames w1);
  similar_timeouts : doubled (Settings.timeouts w2) (Settings.timeouts w1);
  similar_checkCompactMode :
    Settings.checkCompactMode w2 = Settings.checkCompactMode w1;
  similar_console : Settings.console w2 = Settings.console w1;
}.

(** The milliseconds that pass during a run of events: its [Tick]s. *)
Definition elapsed (es : list Settings.Event) : nat :=
  length (List.filter (λ e, match e with Settings.Tick => true | _ => false end) es).

(** Whether the event is a call of the [ResizeObserver] callback. *)
Definition is_resize (e : Settings.Event) : bool :=
  match e with
  | Settings.Resize _ => true
  | _ => false
  end.

End Replay.

(** ** A concrete page *)

(** A view mounted in a page that has one anchor, with a host that accepts
    every call. *)
Definition example_world : Settings.World :=
  Settings.mount None (λ k, k) None {[ "browser-viewport" := ∅ ]} 0.

Definition accepting_host : Settings.ResetStateRequest → Js.Settled :=
  λ _, Js.Fulfilled.

(** ** The welcome view as rendered *)

Module WelcomeUi.

(** The three buttons of the welcome view. *)
Inductive Button : Type :=
| GetStartedButton
| UseApiKeyButton
| LetsGoButton.

Record RenderedButton := { button : Button; disabled : bool }.

#[global] Instance Button_eq_dec : EqDecision Button.
Proof. solve_decision. Defined.

#[global] Instance RenderedButton_eq_dec : EqDecision RenderedButton.
Proof. solve_decision. Defined.

(** [apiErrorMessage != null]. *)
Definition disableLetsGoButton (v : Welcome.View) : bool :=
  bool_decide (is_Some (Welcome.apiErrorMessage v)).

Definition setApiErrorMessage (message : option string) (v : Welcome.View) : Welcome.View :=
  {| Welcome.apiErrorMessage := message;
     Welcome.showApiOptions := Welcome.showApiOptions v;
     Welcome.console := Welcome.console v |}.

Definition setShowApiOptions (show : bool) (v : Welcome.View) : Welcome.View :=
  {| Welcome.apiErrorMessage := Welcome.apiErrorMessage v;
     Welcome.showApiOptions := show;
     Welcome.console := Welcome.console v |}.

(** The buttons of the returned JSX, top to bottom: the login button
    always, the "use API key" button under [!showApiOptions], the "let's
    go" button under [showApiOptions]. *)
Definition buttons (v : Welcome.View) : list RenderedButton :=
  [ {| button := GetStartedButton; disabled := false |} ]
  ++ (if negb (Welcome.showApiOptions v)
      then [ {| button := UseApiKeyButton; disabled := false |} ] else [])
  ++ (if Welcome.showApiOptions v
      then [ {| button := LetsGoButton; disabled := disableLetsGoButton v |} ] else []).

(** Whether [ApiOptions] is part of the returned JSX. *)
Definition shows_ApiOptions (v : Welcome.View) : bool := Welcome.showApiOptions v.

Section Client.

Variable accountLoginClicked : Welcome.EmptyRequest → Js.Settled.
Variable setWelcomeViewCompleted : Welcome.BooleanRequest → Js.Settled.

(** The [onClick] of each button. *)
Definition onClick (b : Button) (v : Welcome.View) : Welcome.View :=
  match b with
  | GetStartedButton => Welcome.handleLogin accountLoginClicked v
  | UseApiKeyButton => setShowApiOptions (negb (Welcome.showApiOptions v)) v
  | LetsGoButton => Welcome.handleSubmit setWelcomeViewCompleted v
  end.

(** What can happen to the welcome view: the effect that stores the result
    of [validateApiConfiguration] (a function outside the sources, its
    result is carried by the event), and a click. A click reaches the
    [onClick] of a button only if the button is rendered and not disabled. *)
Inductive Event : Type :=
| Validated (result : option string)
| Click (b : Button).

Definition step (v : Welcome.View) (e : Event) : Welcome.View :=
  match e with
  | Validated result => setApiErrorMessage result v
  | Click b =>
      if bool_decide ({| button := b; disabled := false |} ∈ buttons v)
      then onClick b v
      else v
  end.

Definition run (v : Welcome.View) (es : list Event) : Welcome.View := foldl step v es.

End Client.

End WelcomeUi.

(** ** Reading the page *)

Module Page.

(** [document.getElementById(id).style[property]], when the element exists
    and the property is set. *)
Definition style_of (w : Settings.World) (element property : string) : option string :=
  Settings.document w !! element ≫= (.!! property).

(** The class of a tab trigger that is the active one. *)
Definition activeClassName : string :=
  Settings.settingsTabTrigger +:+ " " +:+ Settings.settingsTabTriggerActive
    +:+ " focus:ring-0".

(** The rendered tabs that carry the class of the active tab. *)
Definition active_items (items : list Settings.TabItem) : list Settings.TabItem :=
  filter (λ item, Settings.className item = activeClassName) items.

(** The events that write [activeTab]. *)
Definition is_navigation (e : Settings.Event) : bool :=
  match e with
  | Settings.Message _ | Settings.TabChange _ | Settings.TargetSection _ => true
  | _ => false
  end.

Definition is_frame (e : Settings.Event) : bool :=
  match e with
  | Settings.Frame => true
  | _ => false
  end.



(** Events as the rendered view and a well-behaved caller produce them: a
    tab change carries the id of a rendered tab (the [onClick] of a compact
    tab and [onValueChange] of [TabList] pass [tab.id]), and a
    [targetSection] is absent, empty or the id of a section. *)
Definition well_targeted (IS_DEV : option string) (t : string → string)
  (w : Settings.World) (e : Settings.Event) : Prop :=
  match e with
  | Settings.TabChange tabId =>
      tabId ∈ Settings.item_key <$> Settings.tab_list IS_DEV t w
  | Settings.TargetSection targetSection =>
      Js.truthy targetSection = false
      ∨ default EmptyString targetSection
          ∈ Settings.id <$> Settings.getSettingsTabs IS_DEV t
  | _ => True
  end.

(** Events that are well targeted at every state a run goes through. *)
Fixpoint well_targeted_run (IS_DEV : option string) (t : string → string)
  (resetState : Settings.ResetStateRequest → Js.Settled)
  (w : Settings.World) (es : list Settings.Event) : Prop :=
  match es with
  | [] => True
  | e :: es =>
      well_targeted IS_DEV t w e
      ∧ well_targeted_run IS_DEV t resetState (Settings.step IS_DEV t resetState w e) es
  end.

End Page.

(** * Properties *)

(** ** The documentation command *)

Section GenerateDocsProperties.

Import GenerateDocs.

Lemma includes_intro (pre sub post : string) : Js.includes (pre +:+ sub +:+ post) sub.
Proof. by exists pre, post. Qed.

Lemma append_assoc (a b c : string) : (a +:+ b) +:+ c = a +:+ (b +:+ c).
Proof.
  induction a as [|ch a IH]; [done|].
  change (String ch ((a +:+ b) +:+ c) = String ch (a +:+ (b +:+ c))).
  by f_equal.
Qed.

(** C10. For every command context, [generateDocsWithCline] calls
    [controller.initTask] exactly once: the controller has received one more
    prompt than before, the one built from the context. That prompt contains
    the selection's [fileMention], [language] and [content] unchanged, and
    asks for the documentation "in Vietnamese". *)
Theorem generateDocs_inits_one_task (controller : Controller) (context : CommandContext) :
  let sel := selection context in
  let prompt := prompt_of context in
  initTaskCalls (generateDocsWithCline controller context)
    = initTaskCalls controller ++ [prompt]
  ∧ Js.includes prompt (fileMention sel)
  ∧ Js.includes prompt (language sel)
  ∧ Js.includes prompt (content sel)
  ∧ Js.includes prompt " in Vietnamese:".
Proof.
  intros sel prompt. split; [reflexivity|].
  subst prompt. unfold prompt_of. fold sel.
  repeat split.
  - apply includes_intro.
  - exists ("Generate documentation for the following code from " +:+ fileMention sel
              +:+ " in Vietnamese:" +:+ Js.nl +:+ Js.nl +:+ fence),
      (Js.nl +:+ content sel +:+ Js.nl +:+ fence).
    by rewrite !append_assoc.
  - exists ("Generate documentation for the following code from " +:+ fileMention sel
              +:+ " in Vietnamese:" +:+ Js.nl +:+ Js.nl +:+ fence +:+ language sel +:+ Js.nl),
      (Js.nl +:+ fence).
    by rewrite !append_assoc.
  - exists ("Generate documentation for the following code from " +:+ fileMention sel),
      (Js.nl +:+ Js.nl +:+ fence +:+ language sel +:+ Js.nl
         +:+ content sel +:+ Js.nl +:+ fence).
    by rewrite !append_assoc.
Qed.

End GenerateDocsProperties.

(** ** The tab registry *)

Section RegistryProperties.

Import Settings.

(** The ids of the registry do not depend on the locale or on the dev flag. *)
Lemma registry_ids (IS_DEV : option string) (t : string → string) :
  id <$> getSettingsTabs IS_DEV t
  = ["api-config"; "features"; "browser"; "terminal"; "debug"; "general"; "about"].
Proof. reflexivity. Qed.

Lemma elem_of_registry_ids (IS_DEV : option string) (t : string → string) (tabId : string) :
  tabId ∈ id <$> getSettingsTabs IS_DEV t ↔
  tabId = "api-config" ∨ tabId = "features" ∨ tabId = "browser" ∨ tabId = "terminal"
  ∨ tabId = "debug" ∨ tabId = "general" ∨ tabId = "about".
Proof.
  rewrite registry_ids, !elem_of_cons, elem_of_nil. tauto.
Qed.

(** C7, as the code has it. The sequence [getSettingsTabs] returns is
    determined by the values of the translation function at the seven label
    keys together with the truthiness of the module constant [IS_DEV]: two
    calls that agree on those return the same descriptors in the same
    order. *)
Theorem getSettingsTabs_determined_by_labels_and_dev_flag
  (dev1 dev2 : option string) (t1 t2 : string → string) :
  (∀ k, k ∈ tab_label_keys → t1 k = t2 k) →
  Js.truthy dev1 = Js.truthy dev2 →
  getSettingsTabs dev1 t1 = getSettingsTabs dev2 t2.
Proof.
  intros Hlabels Hdev. unfold getSettingsTabs. rewrite Hdev.
  rewrite !(Hlabels _) by (unfold tab_label_keys; set_solver).
  reflexivity.
Qed.

Lemma getSettingsTabs_determined_witness :
  getSettingsTabs None (λ k, k) = getSettingsTabs (Some EmptyString) (λ k, k).
Proof.
  apply getSettingsTabs_determined_by_labels_and_dev_flag.
  - intros k _. reflexivity.
  - reflexivity.
Defined.

(** C7, as the specification has it, fails: with the same translation
    function the output differs between a build where [IS_DEV] is unset and
    one where it is set. *)
Lemma getSettingsTabs_depends_on_dev_flag :
  getSettingsTabs None (λ k, k) ≠ getSettingsTabs (Some "true") (λ k, k).
Proof. unfold getSettingsTabs. simpl. intros H. congruence. Qed.

End RegistryProperties.

(** ** The tab router: activation and lookup *)

Section RouterProperties.

Import Settings.

Variable IS_DEV : option string.
Variable t : string → string.
Variable version : string.

(** The lookup in [TAB_CONTENT_MAP] at each registry id. *)
Lemma content_map_registry (tabId : string) :
  tabId ∈ id <$> SETTINGS_TABS IS_DEV t →
  ∃ component, TAB_CONTENT_MAP !! tabId = Some component
               ∧ Js.get TAB_CONTENT_MAP tabId = Js.Own component.
Proof.
  intros Hin. apply elem_of_registry_ids in Hin.
  destruct Hin as [->|[->|[->|[->|[->|[->| ->]]]]]];
    eexists; split; vm_compute; reflexivity.
Qed.

Lemma existsb_registry (tabId : string) :
  existsb (λ tab, bool_decide (id tab = tabId)) (SETTINGS_TABS IS_DEV t) = true
  ↔ tabId ∈ id <$> SETTINGS_TABS IS_DEV t.
Proof.
  rewrite existsb_exists, list_elem_of_fmap. split.
  - intros (tab & Hin & Heq). apply bool_decide_eq_true in Heq.
    exists tab. split; [done | by apply list_elem_of_In].
  - intros (tab & -> & Hin). exists tab. split; [by apply list_elem_of_In|].
    by apply bool_decide_eq_true.
Qed.

Lemma registry_id_truthy (tabId : string) :
  tabId ∈ id <$> SETTINGS_TABS IS_DEV t → Js.truthy (Some tabId) = true.
Proof.
  intros Hin. apply elem_of_registry_ids in Hin.
  destruct Hin as [->|[->|[->|[->|[->|[->| ->]]]]]]; reflexivity.
Qed.

(** What [handleMessage] does with a navigate message, by cases on the
    target. *)
Lemma handleMessage_navigate (target : string) (w : World) :
  handleMessage IS_DEV t (navigate target) w =
    if negb (Js.truthy (Some target)) then w
    else if existsb (λ tab, bool_decide (id tab = target)) (SETTINGS_TABS IS_DEV t)
    then setActiveTab target w
    else requestAnimationFrame target w.
Proof. reflexivity. Qed.

(** C1. For every id of the registry, [handleTabChange id] followed by the
    [ActiveContent] lookup yields an element of exactly the component that
    [TAB_CONTENT_MAP] holds for that id. *)
Theorem resolveActive_after_setActive (w : World) (tabId : string) :
  tabId ∈ id <$> getSettingsTabs IS_DEV t →
  ∃ component,
    TAB_CONTENT_MAP !! tabId = Some component
    ∧ element_type <$> ActiveContent IS_DEV t version (handleTabChange tabId w)
      = Some (Js.Own component).
Proof.
  intros Hin. destruct (content_map_registry tabId Hin) as (component & Hown & Hget).
  exists component. split; [done|].
  unfold ActiveContent, handleTabChange, setActiveTab. cbn [activeTab].
  rewrite Hget. reflexivity.
Qed.

(** A navigate message with a registry id takes the [setActiveTab] branch. *)
Lemma handleMessage_navigate_known (w : World) (target : string) :
  target ∈ id <$> getSettingsTabs IS_DEV t →
  handleMessage IS_DEV t (navigate target) w = setActiveTab target w.
Proof.
  intros Hin. rewrite handleMessage_navigate.
  rewrite (registry_id_truthy target Hin). cbn [negb].
  apply existsb_registry in Hin. rewrite Hin. reflexivity.
Qed.

(** C2. A navigate message whose target is an id of the registry sets
    [activeTab] to that target. *)
Theorem navigate_known_target_activates (w : World) (target : string) :
  target ∈ id <$> getSettingsTabs IS_DEV t →
  activeTab (handleMessage IS_DEV t (navigate target) w) = target.
Proof.
  intros Hin. rewrite (handleMessage_navigate_known w target Hin). reflexivity.
Qed.

(** [setActiveTab] stores any id, with no check against the registry. *)
Lemma handleTabChange_sets_any (w : World) (tabId : string) :
  activeTab (handleTabChange tabId w) = tabId.
Proof. reflexivity. Qed.

(** The lookup finds nothing exactly for the ids that are neither own keys
    of [TAB_CONTENT_MAP] nor names inherited from [Object.prototype]. *)
Lemma ActiveContent_null (w : World) :
  (ActiveContent IS_DEV t version w = None) ↔
  TAB_CONTENT_MAP !! activeTab w = None
  ∧ (activeTab w ∉ Js.object_prototype_functions)
  ∧ activeTab w ≠ "__proto__".
Proof.
  unfold ActiveContent, Js.get, Js.prototype_get.
  destruct (TAB_CONTENT_MAP !! activeTab w) as [c|]; cbn.
  - split; [done | by intros [? _]].
  - case_bool_decide as Hproto; cbn.
    + split; [done | by intros (_ & ? & _)].
    + destruct (String.eqb_spec (activeTab w) "__proto__") as [Heq|Hne]; cbn.
      * split; [done | by intros (_ & _ & ?)].
      * done.
Qed.

(** C4, at the id ["constructor"]. The id is not in the registry, and both
    [handleTabChange] and the [targetSection] effect store it unchecked; but
    [ActiveContent] is then not [null]: the read
    [TAB_CONTENT_MAP["constructor"]] reaches [Object.prototype] and yields
    the builtin constructor, which passes the [!Component] test and becomes
    the type of the returned element. *)
Theorem resolveActive_inherited_key (w : World) :
  ("constructor" ∉ id <$> getSettingsTabs IS_DEV t)
  ∧ activeTab (handleTabChange "constructor" w) = "constructor"
  ∧ activeTab (targetSection_effect (Some "constructor") w) = "constructor"
  ∧ element_type <$> ActiveContent IS_DEV t version (handleTabChange "constructor" w)
    = Some (Js.Builtin "constructor")
  ∧ ActiveContent IS_DEV t version (handleTabChange "constructor" w) ≠ None.
Proof.
  split; [|split; [|split; [|split]]].
  - rewrite elem_of_registry_ids. intros [?|[?|[?|[?|[?|[?|?]]]]]]; discriminate.
  - reflexivity.
  - reflexivity.
  - vm_compute. reflexivity.
  - rewrite ActiveContent_null. intros (_ & Hproto & _). apply Hproto.
    cbn. unfold Js.object_prototype_functions. set_solver.
Qed.

(** C9. A registry section whose [hidden] flag is truthy is left out of the
    rendered tab list; its id is still accepted by [handleMessage], which
    activates it, and [ActiveContent] then returns an element of the
    component [TAB_CONTENT_MAP] holds for it. *)
Theorem hidden_section_reachable_by_message (w : World) (tab : SettingsTab) :
  tab ∈ getSettingsTabs IS_DEV t →
  Js.truthy_bool (hidden tab) = true →
  (id tab ∉ item_key <$> tab_list IS_DEV t w)
  ∧ activeTab (handleMessage IS_DEV t (navigate (id tab)) w) = id tab
  ∧ ∃ component,
      TAB_CONTENT_MAP !! id tab = Some component
      ∧ element_type
          <$> ActiveContent IS_DEV t version (handleMessage IS_DEV t (navigate (id tab)) w)
        = Some (Js.Own component).
Proof.
  intros Hin Hhidden.
  assert (Hid : id tab ∈ id <$> getSettingsTabs IS_DEV t)
    by (apply list_elem_of_fmap; eauto).
  split; [|split].
  - unfold getSettingsTabs in Hin.
    rewrite !elem_of_cons, elem_of_nil in Hin.
    destruct Hin as [->|[->|[->|[->|[->|[->|[->|[]]]]]]]];
      cbn in Hhidden; try discriminate.
    unfold tab_list, SETTINGS_TABS, getSettingsTabs. cbn [List.filter hidden Js.truthy_bool].
    rewrite Hhidden. cbn.
    rewrite !elem_of_cons, elem_of_nil.
    intros [?|[?|[?|[?|[?|[?|[]]]]]]]; discriminate.
  - by rewrite handleMessage_navigate_known.
  - destruct (content_map_registry (id tab) Hid) as (component & Hown & Hget).
    exists component. split; [done|].
    rewrite (handleMessage_navigate_known w (id tab) Hid).
    unfold ActiveContent, setActiveTab. cbn [activeTab].
    rewrite Hget. reflexivity.
Qed.

End RouterProperties.

(** With the dev flag unset the debug section is such a hidden section. *)
Lemma hidden_section_reachable_witness :
  let w := Settings.mount None (λ k, k) None ∅ 0 in
  let debug := {| Settings.id := "debug"; Settings.name := "settings.tabs.debug";
                  Settings.tooltipText := "settings.tabs.debug";
                  Settings.headerText := "settings.tabs.debug";
                  Settings.icon := Settings.FlaskConical;
                  Settings.hidden := Some true |} in
  ("debug" ∉ Settings.item_key <$> Settings.tab_list None (λ k, k) w)
  ∧ Settings.activeTab
      (Settings.handleMessage None (λ k, k) (Settings.navigate "debug") w) = "debug"
  ∧ ∃ component,
      Settings.TAB_CONTENT_MAP !! "debug" = Some component
      ∧ Settings.element_type
          <$> Settings.ActiveContent None (λ k, k) "3.0"
                (Settings.handleMessage None (λ k, k) (Settings.navigate "debug") w)
        = Some (Js.Own component).
Proof.
  intros w debug.
  apply (hidden_section_reachable_by_message None (λ k, k) "3.0" w debug).
  - unfold Settings.getSettingsTabs. cbn. set_solver.
  - reflexivity.
Defined.

Lemma resolveActive_after_setActive_witness :
  ∃ component,
    Settings.TAB_CONTENT_MAP !! "about" = Some component
    ∧ Settings.element_type
        <$> Settings.ActiveContent None (λ k, k) "3.0"
              (Settings.handleTabChange "about" (Settings.mount None (λ k, k) None ∅ 0))
      = Some (Js.Own component).
Proof.
  apply (resolveActive_after_setActive None (λ k, k) "3.0").
  rewrite elem_of_registry_ids. tauto.
Defined.

Lemma navigate_known_target_witness :
  Settings.activeTab
    (Settings.handleMessage None (λ k, k) (Settings.navigate "terminal")
       (Settings.mount None (λ k, k) None ∅ 0)) = "terminal".
Proof.
  apply (navigate_known_target_activates None (λ k, k)).
  rewrite elem_of_registry_ids. tauto.
Defined.

(** ** Outbound calls *)

(** C8. For each outbound call (login, persist setting, reset state): when
    the host rejects it, the handler writes one line to the console, made of
    its failure label and the error, and leaves the state of both views as it
    was before the call. *)
Theorem rejected_call_logged_state_kept
  (host : Outbound.Host) (call : Outbound.Call) (ui : Outbound.Ui) (err : string) :
  Outbound.settle host call = Js.Rejected err →
  Outbound.state (Outbound.handler host call ui) = Outbound.state ui
  ∧ Outbound.console_of call (Outbound.handler host call ui)
    = Outbound.console_of call ui
        ++ [ {| Js.label := Outbound.failure_label call; Js.detail := err |} ]
  ∧ Outbound.other_console call (Outbound.handler host call ui)
    = Outbound.other_console call ui.
Proof.
  intros Hrej. destruct call; cbn in Hrej |- *.
  - unfold Welcome.handleLogin. rewrite Hrej. done.
  - unfold Welcome.handleSubmit. rewrite Hrej. done.
  - unfold Settings.handleResetState. rewrite Hrej. done.
Qed.

Lemma rejected_call_witness :
  let host := {| Outbound.accountLoginClicked := λ _, Js.Rejected "offline";
                 Outbound.setWelcomeViewCompleted := λ _, Js.Fulfilled;
                 Outbound.resetState := λ _, Js.Fulfilled |} in
  let ui := {| Outbound.welcome :=
                 {| Welcome.apiErrorMessage := None; Welcome.showApiOptions := false;
                    Welcome.console := [] |};
               Outbound.settings := Settings.mount None (λ k, k) None ∅ 0 |} in
  Outbound.state (Outbound.handler host Outbound.AccountLoginClicked ui) = Outbound.state ui
  ∧ Outbound.console_of Outbound.AccountLoginClicked
      (Outbound.handler host Outbound.AccountLoginClicked ui)
    = Outbound.console_of Outbound.AccountLoginClicked ui
        ++ [ {| Js.label := Outbound.failure_label Outbound.AccountLoginClicked;
                Js.detail := "offline" |} ]
  ∧ Outbound.other_console Outbound.AccountLoginClicked
      (Outbound.handler host Outbound.AccountLoginClicked ui)
    = Outbound.other_console Outbound.AccountLoginClicked ui.
Proof.
  intros host ui.
  apply (rejected_call_logged_state_kept host Outbound.AccountLoginClicked ui "offline").
  reflexivity.
Defined.

(** ** Queues with repeated entries *)

Section DoubledQueues.

Import Replay.

Context {A : Type}.

Lemma doubled_refl (l : list A) : doubled l l.
Proof. induction l; constructor; done. Qed.

Lemma doubled_app (l2 l1 k2 k1 : list A) :
  doubled l2 l1 → doubled k2 k1 → doubled (l2 ++ k2) (l1 ++ k1).
Proof.
  intros Hl Hk. induction Hl; cbn; [done | by constructor | by constructor].
Qed.

(** Queuing the same callback once more at the end. *)
Lemma doubled_snoc_twice (l2 l1 : list A) (a : A) :
  doubled l2 l1 → doubled ((l2 ++ [a]) ++ [a]) (l1 ++ [a]).
Proof.
  intros Hl. rewrite <- app_assoc. apply doubled_app; [done|].
  cbn. apply doubled_twice, doubled_nil.
Qed.

Lemma doubled_filter (P : A → Prop) `{∀ x, Decision (P x)} (l2 l1 : list A) :
  doubled l2 l1 → doubled (filter P l2) (filter P l1).
Proof.
  intros Hl. induction Hl as [|x l2 l1 _ IH|x l2 l1 _ IH]; [constructor|..].
  - rewrite !filter_cons. case_decide; [by constructor | done].
  - rewrite !filter_cons. case_decide; [by constructor | done].
Qed.

Lemma doubled_fmap {B : Type} (f : A → B) (l2 l1 : list A) :
  doubled l2 l1 → doubled (f <$> l2) (f <$> l1).
Proof. intros Hl. induction Hl; cbn; by constructor. Qed.

(** Running an idempotent callback twice in a row changes nothing. *)
Lemma doubled_foldl {S : Type} (f : S → A → S) (l2 l1 : list A) :
  (∀ s x, f (f s x) x = f s x) →
  doubled l2 l1 → ∀ s, foldl f s l2 = foldl f s l1.
Proof.
  intros Hidem Hl. induction Hl as [|x l2 l1 _ IH|x l2 l1 _ IH]; intros s; cbn.
  - done.
  - apply IH.
  - rewrite Hidem. apply IH.
Qed.

(** The same, for callbacks that are idempotent only up to a relation. *)
Lemma doubled_foldl_rel {S : Type} (R : S → S → Prop) (f : S → A → S) (l2 l1 : list A) :
  (∀ s2 s1 x, R s2 s1 → R (f s2 x) (f s1 x)) →
  (∀ s2 s1 x, R s2 s1 → R (f (f s2 x) x) (f s1 x)) →
  doubled l2 l1 → ∀ s2 s1, R s2 s1 → R (foldl f s2 l2) (foldl f s1 l1).
Proof.
  intros Hcong Htwice Hl.
  induction Hl as [|x l2 l1 _ IH|x l2 l1 _ IH]; intros s2 s1 HR; cbn.
  - done.
  - apply IH, Hcong, HR.
  - apply IH, Htwice, HR.
Qed.

End DoubledQueues.

(** ** The event loop of the settings view *)

Section EventLoop.

Import Settings Replay.

Variable IS_DEV : option string.
Variable t : string → string.
Variable resetState : ResetStateRequest → Js.Settled.

Local Abbreviation handleMessage := (Settings.handleMessage IS_DEV t).
Local Abbreviation step := (Settings.step IS_DEV t resetState).
Local Abbreviation run := (Settings.run IS_DEV t resetState).

(** Whatever the message, the handler is one of three updates, chosen
    without looking at the state. *)
Lemma handleMessage_shape (event : MessageEvent) :
  (∀ w, handleMessage event w = w)
  ∨ (∃ tabId, ∀ w, handleMessage event w = setActiveTab tabId w)
  ∨ (∃ tabId, ∀ w, handleMessage event w = requestAnimationFrame tabId w).
Proof.
  unfold Settings.handleMessage.
  destruct (negb (bool_decide (type (data event) = "grpc_response"))); [by left|].
  destruct (negb (bool_decide
    ((grpc_response (data event) ≫= message) ≫= key = Some "scrollToSettings")));
    [by left|].
  destruct ((grpc_response (data event) ≫= message) ≫= value) as [tabId|]; [|by left].
  destruct (negb (Js.truthy (Some tabId))); [by left|].
  destruct (existsb _ _); [right; left | right; right]; by exists tabId.
Qed.

(** *** The scroll fallback *)

Lemma scroll_fallback_absent (w : World) (tabId : string) :
  document w !! tabId = None → scroll_fallback w tabId = w.
Proof. intros Hnone. unfold scroll_fallback. by rewrite Hnone. Qed.

Lemma scroll_fallback_keeps_absent (w : World) (tabId other : string) :
  document w !! other = None → document (scroll_fallback w tabId) !! other = None.
Proof.
  intros Hnone. unfold scroll_fallback.
  destruct (document w !! tabId) as [style|] eqn:Hlook; [|done].
  cbn. rewrite lookup_insert_ne; [done | congruence].
Qed.

Lemma foldl_scroll_fallback_keeps_absent (l : list string) (w : World) (other : string) :
  document w !! other = None →
  document (foldl scroll_fallback w l) !! other = None.
Proof.
  revert w. induction l as [|x l IH]; intros w Hnone; cbn; [done|].
  by apply IH, scroll_fallback_keeps_absent.
Qed.

(** The callbacks of a frame leave the router state, the clock, the frame
    queue, the debounced call and the console alone. *)
Lemma scroll_fallback_frame (w : World) (tabId : string) :
  router (scroll_fallback w tabId) = router w
  ∧ clock (scroll_fallback w tabId) = clock w
  ∧ animationFrames (scroll_fallback w tabId) = animationFrames w
  ∧ checkCompactMode (scroll_fallback w tabId) = checkCompactMode w
  ∧ console (scroll_fallback w tabId) = console w.
Proof. unfold scroll_fallback. by destruct (document w !! tabId). Qed.

Lemma foldl_scroll_fallback_frame (l : list string) (w : World) :
  router (foldl scroll_fallback w l) = router w
  ∧ clock (foldl scroll_fallback w l) = clock w
  ∧ animationFrames (foldl scroll_fallback w l) = animationFrames w
  ∧ checkCompactMode (foldl scroll_fallback w l) = checkCompactMode w
  ∧ console (foldl scroll_fallback w l) = console w.
Proof.
  revert w. induction l as [|x l IH]; intros w; cbn; [done|].
  destruct (IH (scroll_fallback w x)) as (-> & -> & -> & -> & ->).
  apply scroll_fallback_frame.
Qed.

(** A frame callback queued for an element that does not exist changes
    nothing when the frame runs. *)
Lemma frame_absent (w : World) (tabId : string) :
  document w !! tabId = None →
  frame (requestAnimationFrame tabId w) = frame w.
Proof.
  intros Hnone. unfold frame, requestAnimationFrame. cbn.
  rewrite foldl_app. cbn.
  apply scroll_fallback_absent, foldl_scroll_fallback_keeps_absent. done.
Qed.

(** C3. A navigate message whose target is neither a registry id nor the id
    of an element of the page leaves the router state, and everything else
    a user can see, as it was; the callback it queues does nothing when the
    next frame runs, so that the state after the frame is the one the frame
    would have produced without the message. *)
Theorem navigate_unknown_target_no_anchor (w : World) (target : string) :
  (target ∉ id <$> getSettingsTabs IS_DEV t) →
  document w !! target = None →
  router (handleMessage (navigate target) w) = router w
  ∧ visible (handleMessage (navigate target) w) = visible w
  ∧ frame (handleMessage (navigate target) w) = frame w.
Proof.
  intros Hunknown Hanchor. rewrite handleMessage_navigate.
  destruct (negb (Js.truthy (Some target))); [done|].
  destruct (existsb (λ tab, bool_decide (id tab = target)) (SETTINGS_TABS IS_DEV t))
    eqn:Hex; [by apply existsb_registry in Hex|].
  repeat split. by apply frame_absent.
Qed.

(** *** Timers *)

(** The due highlight timers only touch the styles of the page. *)
Lemma foldl_clear_highlight (l : list string) (w : World) :
  foldl clear_highlight w l =
    {| activeTab := activeTab w; isCompactMode := isCompactMode w;
       document :=
         foldl (λ doc element, alter (insert "backgroundColor" "transparent") element doc)
           (document w) l;
       scrolledIntoView := scrolledIntoView w;
       clock := clock w; animationFrames := animationFrames w;
       timeouts := timeouts w; checkCompactMode := checkCompactMode w;
       console := console w |}.
Proof.
  revert w. induction l as [|x l IH]; intros w; cbn.
  - by destruct w.
  - rewrite IH. reflexivity.
Qed.

(** What one millisecond does to the clock and to the debounced call. *)
Lemma tick_debounce (w : World) :
  clock (tick w) = S (clock w)
  ∧ match checkCompactMode w with
    | Some (deadline, width) =>
        if bool_decide (deadline ≤ S (clock w))%nat
        then checkCompactMode (tick w) = None
             ∧ isCompactMode (tick w) = width_lt width 500
        else checkCompactMode (tick w) = Some (deadline, width)
             ∧ isCompactMode (tick w) = isCompactMode w
    | None => checkCompactMode (tick w) = None
              ∧ isCompactMode (tick w) = isCompactMode w
    end.
Proof.
  unfold tick. rewrite foldl_clear_highlight. cbn.
  destruct (checkCompactMode w) as [[deadline width]|]; [|done].
  case_bool_decide; done.
Qed.

(** Events other than a tick and an observation leave the clock, the
    debounced call and the compact flag alone. *)
Lemma step_keeps_debounce (w : World) (e : Event) :
  e ≠ Tick → is_resize e = false →
  clock (step w e) = clock w
  ∧ checkCompactMode (step w e) = checkCompactMode w
  ∧ isCompactMode (step w e) = isCompactMode w.
Proof.
  intros Htick Hresize. destruct e as [event|tabId|target|entries|g| |]; cbn.
  - destruct (handleMessage_shape event) as [Hid|[[tabId Hset]|[tabId Hraf]]].
    + by rewrite Hid.
    + by rewrite Hset.
    + by rewrite Hraf.
  - done.
  - unfold targetSection_effect. by destruct (Js.truthy target).
  - discriminate.
  - unfold handleResetState. by destruct (resetState _).
  - unfold frame.
    match goal with |- context [foldl scroll_fallback ?base ?l] =>
      destruct (foldl_scroll_fallback_frame l base) as (Hr & -> & _ & -> & _)
    end.
    cbn in Hr |- *. unfold router in Hr. by injection Hr as _ ->.
  - done.
Qed.

(** The debounced call: once it is pending, it runs within the time it has
    left, provided no later observation replaces it. *)
Lemma debounce_fires (b : bool) (es : list Event) :
  ∀ (w : World) (k : nat),
    (checkCompactMode w = None ∧ isCompactMode w = b)
    ∨ ((1 ≤ k)%nat ∧ ∃ deadline width,
         checkCompactMode w = Some (deadline, width)
         ∧ width_lt width 500 = b ∧ (deadline ≤ clock w + k)%nat) →
    Forall (λ e, is_resize e = false) es →
    (k ≤ elapsed es)%nat →
    checkCompactMode (run w es) = None ∧ isCompactMode (run w es) = b.
Proof.
  induction es as [|e es IH]; intros w k Hinv Hquiet Hticks.
  - cbn in Hticks |- *. destruct Hinv as [?|[? _]]; [done | lia].
  - apply Forall_cons in Hquiet as [He Hquiet]. cbn [Settings.run foldl].
    assert (Hcase : e = Tick ∨ e ≠ Tick) by (destruct e; (by left) || (by right)).
    destruct Hcase as [->|Hne].
    + change (elapsed (Tick :: es)) with (S (elapsed es)) in Hticks.
      apply (IH (tick w) (k - 1)); [|done|lia].
      destruct (tick_debounce w) as [Hclock Hpending].
      destruct Hinv as [[Hnone Hcompact]|(Hk & deadline & width & Hsome & Hb & Hdue)].
      * rewrite Hnone in Hpending. left. destruct Hpending as [-> ->]. done.
      * rewrite Hsome in Hpending. case_bool_decide as Hnow.
        -- left. destruct Hpending as [-> ->]. done.
        -- right. destruct Hpending as [-> _]. split; [lia|].
           exists deadline, width. split; [done|]. split; [done|]. lia.
    + assert (Hel : elapsed (e :: es) = elapsed es) by (by destruct e).
      rewrite Hel in Hticks.
      destruct (step_keeps_debounce w e Hne He) as (Hc & Hp & Hm).
      apply (IH (step w e) k); [|done|done].
      rewrite Hc, Hp, Hm. done.
Qed.

(** C5. An observed width that no later observation replaces for 100 ms
    decides the compact flag: after those 100 ms, whatever else happened in
    between, [isCompactMode] is [width < 500]; so it is [true] for every
    width strictly below 500 and [false] for every width above it. *)
Theorem compact_follows_width_after_debounce
  (w : World) (width : Q) (others : list Q) (es : list Event) :
  Forall (λ e, is_resize e = false) es →
  (100 ≤ elapsed es)%nat →
  let w' := run (step w (Resize (width :: others))) es in
  isCompactMode w' = width_lt width 500
  ∧ ((width < 500)%Q → isCompactMode w' = true)
  ∧ ((500 < width)%Q → isCompactMode w' = false).
Proof.
  intros Hquiet Hticks w'.
  assert (Hfire : isCompactMode w' = width_lt width 500).
  { apply (debounce_fires (width_lt width 500) es _ 100); [|done|done].
    right. split; [lia|]. exists (clock w + 100), width. done. }
  split; [done|]. rewrite Hfire. unfold width_lt. split.
  - intros Hlt. by rewrite (proj1 (Qlt_alt width 500) Hlt).
  - intros Hgt. by rewrite (proj1 (Qgt_alt width 500) Hgt).
Qed.

(** *** Repeated callbacks *)

Lemma similar_refl (w : World) : similar w w.
Proof. constructor; done || apply doubled_refl. Qed.

Lemma similar_visible (w2 w1 : World) : similar w2 w1 → visible w2 = visible w1.
Proof. intros [Ha Hc Hd Hs _ _ _ _ _]. unfold visible. by rewrite Ha, Hc, Hd, Hs. Qed.

(** Highlighting a highlighted element again leaves its style as it is. *)
Lemma highlight_twice (style : gmap string string) (u v : string) :
  <["backgroundColor" := v]>
    (<["transition" := u]> (<["backgroundColor" := v]> (<["transition" := u]> style)))
  = <["backgroundColor" := v]> (<["transition" := u]> style).
Proof.
  apply map_eq. intros k. rewrite !lookup_insert. repeat case_decide; done.
Qed.

Lemma clear_twice (doc : gmap string (gmap string string)) (element : string) :
  alter (insert "backgroundColor" "transparent") element
    (alter (insert "backgroundColor" "transparent") element doc)
  = alter (insert "backgroundColor" "transparent") element doc.
Proof.
  apply map_eq. intros k. destruct (decide (element = k)) as [->|Hne].
  - rewrite !lookup_alter_eq. destruct (doc !! k) as [style|]; [|done].
    cbn. f_equal. apply insert_insert_eq.
  - by rewrite !lookup_alter_ne.
Qed.

Lemma scroll_fallback_similar (w2 w1 : World) (tabId : string) :
  similar w2 w1 → similar (scroll_fallback w2 tabId) (scroll_fallback w1 tabId).
Proof.
  intros Hsim. pose proof Hsim as [Ha Hc Hd Hs Hk Hf Ht Hp Hl].
  unfold scroll_fallback. rewrite Hd.
  destruct (document w1 !! tabId) as [style|]; [|done].
  constructor; cbn; try done.
  rewrite Hk. apply doubled_app; [done | apply doubled_refl].
Qed.

Lemma scroll_fallback_present (w : World) (tabId : string) (style : gmap string string) :
  document w !! tabId = Some style →
  scroll_fallback w tabId =
    {| activeTab := activeTab w; isCompactMode := isCompactMode w;
       document :=
         <[tabId :=
             <["backgroundColor" := "var(--vscode-textPreformat-background)"]>
               (<["transition" := "background-color 0.5s ease"]> style)]>
           (document w);
       scrolledIntoView := Some tabId;
       clock := clock w; animationFrames := animationFrames w;
       timeouts := timeouts w ++ [(clock w + 1200, tabId)];
       checkCompactMode := checkCompactMode w;
       console := console w |}.
Proof. intros Hlook. unfold scroll_fallback. by rewrite Hlook. Qed.

Lemma scroll_fallback_twice (w2 w1 : World) (tabId : string) :
  similar w2 w1 →
  similar (scroll_fallback (scroll_fallback w2 tabId) tabId) (scroll_fallback w1 tabId).
Proof.
  intros Hsim. pose proof Hsim as [Ha Hc Hd Hs Hk Hf Ht Hp Hl].
  destruct (document w1 !! tabId) as [style|] eqn:Hlook.
  - assert (Hlook2 : document w2 !! tabId = Some style) by (by rewrite Hd).
    rewrite (scroll_fallback_present w1 tabId style Hlook).
    rewrite (scroll_fallback_present w2 tabId style Hlook2).
    erewrite scroll_fallback_present by (cbn; apply lookup_insert_eq).
    constructor; cbn; try done.
    + rewrite insert_insert_eq, highlight_twice, Hd. done.
    + rewrite Hk. by apply doubled_snoc_twice.
  - rewrite (scroll_fallback_absent w1) by done.
    rewrite !(scroll_fallback_absent w2) by (by rewrite Hd).
    done.
Qed.

Lemma frame_similar (w2 w1 : World) : similar w2 w1 → similar (frame w2) (frame w1).
Proof.
  intros Hsim. pose proof Hsim as [Ha Hc Hd Hs Hk Hf Ht Hp Hl]. unfold frame.
  apply (doubled_foldl_rel similar scroll_fallback);
    [exact scroll_fallback_similar | exact scroll_fallback_twice | done |].
  constructor; cbn; done || constructor.
Qed.

Lemma tick_similar (w2 w1 : World) : similar w2 w1 → similar (tick w2) (tick w1).
Proof.
  intros [Ha Hc Hd Hs Hk Hf Ht Hp Hl]. unfold tick.
  rewrite !foldl_clear_highlight. cbn. rewrite Hp, Hk, Hd.
  assert (Hdoc :
    foldl (λ doc element, alter (insert "backgroundColor" "transparent") element doc)
      (document w1) (filter (λ tm : nat * string, (tm.1 ≤ S (clock w1))%nat) (timeouts w2)).*2
    = foldl (λ doc element, alter (insert "backgroundColor" "transparent") element doc)
      (document w1) (filter (λ tm : nat * string, (tm.1 ≤ S (clock w1))%nat) (timeouts w1)).*2).
  { apply doubled_foldl; [intros; apply clear_twice|].
    by apply doubled_fmap, doubled_filter. }
  assert (Hrest :
    doubled (filter (λ tm : nat * string, ¬ (tm.1 ≤ S (clock w1))%nat) (timeouts w2))
            (filter (λ tm : nat * string, ¬ (tm.1 ≤ S (clock w1))%nat) (timeouts w1)))
    by (by apply doubled_filter).
  destruct (checkCompactMode w1) as [[deadline width]|].
  - case_bool_decide; constructor; cbn; done.
  - constructor; cbn; done.
Qed.

(** Every event keeps two similar worlds similar. *)
Lemma step_similar (w2 w1 : World) (e : Event) :
  similar w2 w1 → similar (step w2 e) (step w1 e).
Proof.
  intros Hsim. pose proof Hsim as [Ha Hc Hd Hs Hk Hf Ht Hp Hl].
  destruct e as [event|tabId|target|entries|g| |]; cbn.
  - destruct (handleMessage_shape event) as [Hid|[[tabId Hset]|[tabId Hraf]]].
    + by rewrite !Hid.
    + rewrite !Hset. constructor; cbn; done.
    + rewrite !Hraf. constructor; cbn; try done.
      apply doubled_app; [done | apply doubled_refl].
  - constructor; cbn; done.
  - unfold targetSection_effect. destruct (Js.truthy target); [|done].
    constructor; cbn; done.
  - destruct entries as [|width others]; cbn; [done|].
    constructor; cbn; try done. by rewrite Hk.
  - unfold handleResetState. destruct (resetState _); [done|].
    constructor; cbn; try done. by rewrite Hl.
  - by apply frame_similar.
  - by apply tick_similar.
Qed.

Lemma run_similar (es : list Event) (w2 w1 : World) :
  similar w2 w1 → similar (run w2 es) (run w1 es).
Proof.
  revert w2 w1. induction es as [|e es IH]; intros w2 w1 Hsim; cbn; [done|].
  by apply IH, step_similar.
Qed.

(** Handling a message a second time only queues a callback once more, if
    it changes anything at all. *)
Lemma handleMessage_twice_similar (event : MessageEvent) (w : World) :
  similar (handleMessage event (handleMessage event w)) (handleMessage event w).
Proof.
  destruct (handleMessage_shape event) as [Hid|[[tabId Hset]|[tabId Hraf]]].
  - rewrite !Hid. apply similar_refl.
  - rewrite !Hset. constructor; cbn; done || apply doubled_refl.
  - rewrite !Hraf. constructor; cbn; try done; try apply doubled_refl.
    apply doubled_snoc_twice, doubled_refl.
Qed.

(** C6. Handling the same inbound message twice in succession is the same
    as handling it once: the router state is the same right away, and from
    then on, whatever events follow (further messages, clicks, resize
    observations, frames, timers), the router state, the styles of the page
    and the element scrolled to are at every point what they would be had
    the message been handled once. *)
Theorem handleMessage_idempotent (event : MessageEvent) (w : World) (es : list Event) :
  router (handleMessage event (handleMessage event w)) = router (handleMessage event w)
  ∧ visible (run (handleMessage event (handleMessage event w)) es)
    = visible (run (handleMessage event w) es).
Proof.
  pose proof (handleMessage_twice_similar event w) as Hsim. split.
  - destruct Hsim as [Ha Hc _ _ _ _ _ _ _]. unfold router. by rewrite Ha, Hc.
  - by apply similar_visible, run_similar.
Qed.

End EventLoop.

(** ** The event loop at concrete inputs *)

Lemma navigate_unknown_target_witness :
  Settings.router
    (Settings.handleMessage None (λ k, k) (Settings.navigate "nowhere") example_world)
  = Settings.router example_world
  ∧ Settings.visible
      (Settings.handleMessage None (λ k, k) (Settings.navigate "nowhere") example_world)
    = Settings.visible example_world
  ∧ Settings.frame
      (Settings.handleMessage None (λ k, k) (Settings.navigate "nowhere") example_world)
    = Settings.frame example_world.
Proof.
  apply (navigate_unknown_target_no_anchor None (λ k, k) example_world "nowhere").
  - rewrite elem_of_registry_ids. intros [?|[?|[?|[?|[?|[?|?]]]]]]; discriminate.
  - vm_compute. reflexivity.
Defined.

Lemma compact_after_debounce_witness :
  let w' :=
    Settings.run None (λ k, k) accepting_host
      (Settings.step None (λ k, k) accepting_host example_world (Settings.Resize [480%Q]))
      (repeat Settings.Tick 100) in
  Settings.isCompactMode w' = Settings.width_lt 480 500
  ∧ ((480 < 500)%Q → Settings.isCompactMode w' = true)
  ∧ ((500 < 480)%Q → Settings.isCompactMode w' = false).
Proof.
  apply (compact_follows_width_after_debounce None (λ k, k) accepting_host
           example_world 480%Q [] (repeat Settings.Tick 100)).
  - repeat constructor.
  - vm_compute. lia.
Defined.

(** The widths the specification names: 480 gives compact, 600 does not;
    500 itself does not either. One millisecond short of the debounce the
    flag still has its initial value. *)
Example observe_480 :
  Settings.isCompactMode
    (Settings.run None (λ k, k) accepting_host example_world
       (Settings.Resize [600%Q] :: repeat Settings.Tick 100
        ++ Settings.Resize [480%Q] :: repeat Settings.Tick 100)) = true.
Proof. vm_compute. reflexivity. Qed.

Example observe_600 :
  Settings.isCompactMode
    (Settings.run None (λ k, k) accepting_host example_world
       (Settings.Resize [600%Q] :: repeat Settings.Tick 100)) = false.
Proof. vm_compute. reflexivity. Qed.

Example observe_500 :
  Settings.isCompactMode
    (Settings.run None (λ k, k) accepting_host example_world
       (Settings.Resize [500%Q] :: repeat Settings.Tick 100)) = false.
Proof. vm_compute. reflexivity. Qed.

Example observe_600_too_early :
  Settings.isCompactMode
    (Settings.run None (λ k, k) accepting_host example_world
       (Settings.Resize [600%Q] :: repeat Settings.Tick 99)) = true.
Proof. vm_compute. reflexivity. Qed.

(** An observation that another one replaces within the 100 ms never
    reaches the flag: only the last width of a burst counts. Here the view
    is wide, 480 is observed and then 600 again 60 ms later; the flag stays
    [false] 120 ms after the observation of 480 and after the burst. *)
Example observe_burst :
  Settings.isCompactMode
    (Settings.run None (λ k, k) accepting_host example_world
       (Settings.Resize [600%Q] :: repeat Settings.Tick 100
        ++ Settings.Resize [480%Q] :: repeat Settings.Tick 60
        ++ Settings.Resize [600%Q] :: repeat Settings.Tick 60)) = false
  ∧ Settings.isCompactMode
      (Settings.run None (λ k, k) accepting_host example_world
         (Settings.Resize [600%Q] :: repeat Settings.Tick 100
          ++ Settings.Resize [480%Q] :: repeat Settings.Tick 60
          ++ Settings.Resize [600%Q] :: repeat Settings.Tick 100)) = false.
Proof. vm_compute. done. Qed.

(** The anchor path of [handleMessage]: the element is scrolled to and
    highlighted in the next frame, and the highlight is cleared 1200 ms
    later. *)
Example navigate_anchor :
  let highlighted :=
    Settings.run None (λ k, k) accepting_host example_world
      [Settings.Message (Settings.navigate "browser-viewport"); Settings.Frame] in
  let cleared :=
    Settings.run None (λ k, k) accepting_host highlighted (repeat Settings.Tick 1200) in
  Settings.scrolledIntoView highlighted = Some "browser-viewport"
  ∧ (Settings.document highlighted !! "browser-viewport") ≫= (.!! "backgroundColor")
    = Some "var(--vscode-textPreformat-background)"
  ∧ Settings.timeouts highlighted = [(1200, "browser-viewport")]
  ∧ (Settings.document cleared !! "browser-viewport") ≫= (.!! "backgroundColor")
    = Some "transparent"
  ∧ Settings.timeouts cleared = []
  ∧ Settings.router cleared = Settings.router example_world.
Proof. vm_compute. done. Qed.

(** * Further properties *)

(** ** The registry, the content map and the tab list *)

Section RegistryAndRendering.

Import Settings.

Variable IS_DEV : option string.
Variable t : string → string.
Variable version : string.

(** X1. The ids of the registry are pairwise distinct, whatever the locale
    and the dev flag. *)
Theorem registry_ids_distinct : NoDup (id <$> getSettingsTabs IS_DEV t).
Proof.
  rewrite registry_ids. apply (bool_decide_unpack _). vm_compute. reflexivity.
Qed.

Lemma content_map_keys (k : string) (component : SectionComponent) :
  TAB_CONTENT_MAP !! k = Some component →
  k ∈ id <$> getSettingsTabs IS_DEV t.
Proof.
  intros Hlook. unfold TAB_CONTENT_MAP in Hlook.
  apply elem_of_list_to_map_2 in Hlook.
  rewrite elem_of_registry_ids. rewrite !elem_of_cons, elem_of_nil in Hlook.
  destruct Hlook as [H|[H|[H|[H|[H|[H|[H|[]]]]]]]]; injection H as -> _; tauto.
Qed.

(** X2. The own keys of [TAB_CONTENT_MAP] are exactly the ids of the
    registry: every section of the registry has a component, and the map
    has no entry that no registry id reaches. *)
Theorem content_map_covers_registry (k : string) :
  is_Some (TAB_CONTENT_MAP !! k) ↔ k ∈ id <$> getSettingsTabs IS_DEV t.
Proof.
  split.
  - intros [component Hlook]. by eapply content_map_keys.
  - intros Hin. destruct (content_map_registry IS_DEV t k Hin) as (c & -> & _). by eexists.
Qed.

(** X3. [renderSectionHeader] finds a header exactly for the ids of the
    registry, the hidden section included, and builds it from the icon and
    the header text of the descriptor with that id; for any other id, also
    a name inherited from [Object.prototype], it returns [null]. *)
Theorem renderSectionHeader_registry (tabId : string) :
  match renderSectionHeader IS_DEV tabId t with
  | Some header =>
      ∃ tab, tab ∈ getSettingsTabs IS_DEV t ∧ id tab = tabId
             ∧ header = {| header_icon := icon tab; header_text := headerText tab |}
  | None => tabId ∉ id <$> getSettingsTabs IS_DEV t
  end.
Proof.
  unfold renderSectionHeader.
  destruct (List.find _ _) as [tab|] eqn:Hfind.
  - apply find_some in Hfind as [Hin Heq]. apply bool_decide_eq_true in Heq.
    exists tab. by rewrite <- list_elem_of_In in Hin.
  - intros Hin. apply list_elem_of_fmap in Hin as (tab & -> & Hin).
    apply list_elem_of_In in Hin.
    pose proof (find_none _ _ Hfind tab Hin) as Hno. cbn in Hno.
    by apply bool_decide_eq_false in Hno.
Qed.

Lemma tab_list_keys_by_flag (w : World) :
  item_key <$> tab_list IS_DEV t w =
    if Js.truthy IS_DEV
    then ["api-config"; "features"; "browser"; "terminal"; "debug"; "general"; "about"]
    else ["api-config"; "features"; "browser"; "terminal"; "general"; "about"].
Proof.
  unfold tab_list, SETTINGS_TABS, getSettingsTabs. cbn [List.filter hidden Js.truthy_bool negb].
  by destruct (Js.truthy IS_DEV).
Qed.

(** X4. The tab list shows the registry in its order, without the debug
    section unless [IS_DEV] is truthy. Any non-empty string is truthy, the
    string "false" too. *)
Theorem tab_list_keys (w : World) :
  item_key <$> tab_list IS_DEV t w =
    if Js.truthy IS_DEV
    then ["api-config"; "features"; "browser"; "terminal"; "debug"; "general"; "about"]
    else ["api-config"; "features"; "browser"; "terminal"; "general"; "about"].
Proof.
  rewrite tab_list_keys_by_flag. by destruct (Js.truthy IS_DEV).
Qed.

(** A rendered tab has the class of the active tab exactly when its id is
    [activeTab]. *)
Lemma className_active (w : World) (tab : SettingsTab) :
  className (renderTabItem w tab) = Page.activeClassName ↔ activeTab w = id tab.
Proof.
  unfold renderTabItem, Page.activeClassName. cbn [className].
  case_bool_decide as Hactive; split; intros H; done.
Qed.

Lemma active_items_count (w : World) (tabs : list SettingsTab) :
  NoDup (id <$> tabs) →
  length (Page.active_items (renderTabItem w <$> tabs)) =
    if bool_decide (activeTab w ∈ id <$> tabs) then 1 else 0.
Proof.
  unfold Page.active_items.
  induction tabs as [|tab tabs IH]; intros Hnodup; [done|].
  rewrite !fmap_cons in *. apply NoDup_cons in Hnodup as [Hfresh Hnodup].
  rewrite filter_cons.
  destruct (decide (className (renderTabItem w tab) = Page.activeClassName))
    as [Hclass|Hclass]; cbn [length]; rewrite (IH Hnodup).
  - apply className_active in Hclass.
    rewrite (bool_decide_eq_false_2 (activeTab w ∈ id <$> tabs)) by (by rewrite Hclass).
    rewrite bool_decide_eq_true_2 by (rewrite Hclass; apply list_elem_of_here).
    reflexivity.
  - assert (Hne : activeTab w ≠ id tab) by (by rewrite <- className_active).
    case_bool_decide as Hin.
    + rewrite bool_decide_eq_true_2 by (by apply list_elem_of_further). done.
    + rewrite bool_decide_eq_false_2; [done|].
      rewrite elem_of_cons. by intros [?|?].
Qed.

Lemma tab_list_item_keys (w : World) :
  item_key <$> tab_list IS_DEV t w
  = id <$> List.filter (λ tab, negb (Js.truthy_bool (hidden tab))) (SETTINGS_TABS IS_DEV t).
Proof.
  unfold tab_list. rewrite <- list_fmap_compose. reflexivity.
Qed.

Lemma tab_list_ids_distinct :
  NoDup (id <$> List.filter (λ tab, negb (Js.truthy_bool (hidden tab)))
                  (SETTINGS_TABS IS_DEV t)).
Proof.
  unfold SETTINGS_TABS, getSettingsTabs. cbn [List.filter hidden Js.truthy_bool negb].
  destruct (Js.truthy IS_DEV); apply (bool_decide_unpack _); vm_compute; reflexivity.
Qed.

(** X5. At most one rendered tab carries the class of the active tab:
    exactly one when [activeTab] is the id of a rendered tab, none when it
    is the id of the hidden section or of no section. *)
Theorem one_active_tab (w : World) :
  length (Page.active_items (tab_list IS_DEV t w)) =
    if bool_decide (activeTab w ∈ item_key <$> tab_list IS_DEV t w) then 1 else 0.
Proof.
  rewrite tab_list_item_keys. unfold tab_list.
  apply active_items_count, tab_list_ids_distinct.
Qed.

(** X22. An id that is no section and no property name inherited from
    [Object.prototype] gives an empty view: once it is the active tab, by a
    tab change or a target section, [ActiveContent] is [null] and no
    rendered tab carries the class of the active tab. *)
Theorem unknown_tab_renders_nothing (w : World) (tabId : string) :
  (tabId ∉ id <$> getSettingsTabs IS_DEV t) →
  (tabId ∉ Js.object_prototype_functions) →
  tabId ≠ "__proto__" →
  let w' := handleTabChange tabId w in
  ActiveContent IS_DEV t version w' = None
  ∧ Page.active_items (tab_list IS_DEV t w') = [].
Proof.
  intros Hunknown Hproto Hnot w'. subst w'. split.
  - apply (proj2 (ActiveContent_null IS_DEV t version (handleTabChange tabId w))).
    cbn [handleTabChange setActiveTab activeTab]. split; [|done].
    destruct (TAB_CONTENT_MAP !! tabId) as [component|] eqn:Hlook; [|done].
    exfalso. by apply Hunknown, (content_map_keys tabId component).
  - apply length_zero_iff_nil. unfold tab_list.
    rewrite active_items_count by apply tab_list_ids_distinct.
    rewrite bool_decide_eq_false_2; [done|]. cbn [handleTabChange setActiveTab activeTab].
    intros Hin. apply Hunknown.
    apply list_elem_of_fmap in Hin as (tab & -> & Hin).
    apply list_elem_of_In, filter_In in Hin as [Hin _].
    apply list_elem_of_fmap. exists tab. split; [done|]. by apply list_elem_of_In.
Qed.

End RegistryAndRendering.

(** ** Mounting, messages and the active tab *)

Section ActiveTab.

Import Settings.

Variable IS_DEV : option string.
Variable t : string → string.
Variable version : string.
Variable resetState : ResetStateRequest → Js.Settled.

(** X6. Mounted without a target section (absent or empty), the view
    starts on the first tab of the registry, in compact mode; that tab is
    rendered in the tab list whatever the dev flag, and its content is the
    API configuration section. *)
Theorem mount_default_tab
  (targetSection : option string) (doc : gmap string (gmap string string)) (now : nat) :
  Js.truthy targetSection = false →
  let w := mount IS_DEV t targetSection doc now in
  activeTab w = "api-config"
  ∧ isCompactMode w = true
  ∧ activeTab w ∈ item_key <$> tab_list IS_DEV t w
  ∧ element_type <$> ActiveContent IS_DEV t version w
    = Some (Js.Own ApiConfigurationSection).
Proof.
  intros Hfalsy w.
  assert (Hactive : activeTab w = "api-config").
  { subst w. unfold mount, initialTab. cbn [activeTab].
    destruct targetSection as [s|]; [|done]. by rewrite Hfalsy. }
  split; [done|]. split; [done|]. split.
  - rewrite Hactive, tab_list_keys_by_flag.
    destruct (Js.truthy IS_DEV); apply list_elem_of_here.
  - unfold ActiveContent. rewrite Hactive. vm_compute. reflexivity.
Qed.

(** Mounted with a target section, the view starts on it unchecked. *)
Lemma mount_target_tab
  (target : string) (doc : gmap string (gmap string string)) (now : nat) :
  Js.truthy (Some target) = true →
  activeTab (mount IS_DEV t (Some target) doc now) = target.
Proof. intros Htruthy. unfold mount, initialTab. cbn [activeTab]. by rewrite Htruthy. Qed.



(** X8. A message that is no navigate request is ignored: any other
    [type], an absent [grpc_response] or message, any other key, or an
    absent or empty value leave the view exactly as it is. *)
Theorem handleMessage_ignores_other_messages (event : MessageEvent) (w : World) :
  type (data event) ≠ "grpc_response"
  ∨ (grpc_response (data event) ≫= message) ≫= key ≠ Some "scrollToSettings"
  ∨ Js.truthy ((grpc_response (data event) ≫= message) ≫= value) = false →
  handleMessage IS_DEV t event w = w.
Proof.
  intros Hother. unfold handleMessage.
  case_bool_decide as Htype; cbn [negb]; [|done].
  case_bool_decide as Hkey; cbn [negb]; [|done].
  destruct ((grpc_response (data event) ≫= message) ≫= value) as [tabId|]; [|done].
  destruct Hother as [?|[?|Hfalsy]]; [done|done|].
  by rewrite Hfalsy.
Qed.

Lemma handleMessage_frame (event : MessageEvent) (w : World) :
  let w' := handleMessage IS_DEV t event w in
  isCompactMode w' = isCompactMode w
  ∧ document w' = document w
  ∧ scrolledIntoView w' = scrolledIntoView w
  ∧ clock w' = clock w
  ∧ timeouts w' = timeouts w
  ∧ checkCompactMode w' = checkCompactMode w
  ∧ console w' = console w.
Proof.
  destruct (handleMessage_shape IS_DEV t event) as [Hid|[[tabId Hset]|[tabId Hraf]]]; cbn.
  - by rewrite Hid.
  - by rewrite Hset.
  - by rewrite Hraf.
Qed.

Lemma handleMessage_activeTab (event : MessageEvent) (w : World) :
  activeTab (handleMessage IS_DEV t event w) = activeTab w
  ∨ activeTab (handleMessage IS_DEV t event w) ∈ id <$> getSettingsTabs IS_DEV t.
Proof.
  unfold handleMessage.
  destruct (negb (bool_decide _)); [by left|].
  destruct (negb (bool_decide _)); [by left|].
  destruct (_ ≫= value) as [tabId|]; [|by left].
  destruct (negb (Js.truthy (Some tabId))); [by left|].
  destruct (existsb _ _) eqn:Hex.
  - apply existsb_registry in Hex. by right.
  - by left.
Qed.

(** X9. [handleMessage] writes nothing but [activeTab] and the queue of
    frame callbacks, and the only ids it ever activates are ids of the
    registry. *)
Theorem handleMessage_activates_only_registry (event : MessageEvent) (w : World) :
  let w' := handleMessage IS_DEV t event w in
  (activeTab w' = activeTab w ∨ activeTab w' ∈ id <$> getSettingsTabs IS_DEV t)
  ∧ isCompactMode w' = isCompactMode w
  ∧ document w' = document w
  ∧ scrolledIntoView w' = scrolledIntoView w
  ∧ clock w' = clock w
  ∧ timeouts w' = timeouts w
  ∧ checkCompactMode w' = checkCompactMode w
  ∧ console w' = console w.
Proof.
  intros w'. split.
  - apply handleMessage_activeTab.
  - apply handleMessage_frame.
Qed.

Lemma ActiveContent_registry (w : World) :
  activeTab w ∈ id <$> getSettingsTabs IS_DEV t →
  is_Some (ActiveContent IS_DEV t version w).
Proof.
  intros Hin. destruct (content_map_registry IS_DEV t _ Hin) as (c & _ & Hget).
  unfold ActiveContent. rewrite Hget. by eexists.
Qed.

Lemma step_keeps_registry_tab (w : World) (e : Event) :
  activeTab w ∈ id <$> getSettingsTabs IS_DEV t →
  Page.well_targeted IS_DEV t w e →
  activeTab (step IS_DEV t resetState w e) ∈ id <$> getSettingsTabs IS_DEV t.
Proof.
  intros Hin Hgood. destruct e as [event|tabId|target|entries|g| |]; cbn.
  - destruct (handleMessage_activeTab event w) as [->|?]; done.
  - unfold Page.well_targeted in Hgood. rewrite tab_list_item_keys in Hgood.
    apply list_elem_of_fmap in Hgood as (tab & -> & Htab).
    apply list_elem_of_In, filter_In in Htab as [Htab _].
    change (id tab ∈ id <$> getSettingsTabs IS_DEV t).
    apply list_elem_of_fmap. exists tab. split; [done|]. by apply list_elem_of_In.
  - unfold targetSection_effect. destruct (Js.truthy target) eqn:Htruthy; [|done].
    cbn. destruct Hgood as [?|?]; [congruence|done].
  - by destruct entries.
  - unfold handleResetState. by destruct (resetState _).
  - unfold frame.
    match goal with |- context [foldl scroll_fallback ?base ?l] =>
      destruct (foldl_scroll_fallback_frame l base) as (Hr & _)
    end.
    unfold router in Hr. injection Hr as -> _. done.
  - unfold tick. rewrite foldl_clear_highlight. cbn.
    destruct (checkCompactMode w) as [[deadline width]|]; [|done].
    by case_bool_decide.
Qed.

(** X10. The content pane is never left blank: when the active tab is a
    section of the registry and every tab change and target section names
    one, the active tab stays a section of the registry through any run of
    events, and [ActiveContent] always returns an element. *)
Theorem active_tab_stays_in_registry (w : World) (es : list Event) :
  activeTab w ∈ id <$> getSettingsTabs IS_DEV t →
  Page.well_targeted_run IS_DEV t resetState w es →
  activeTab (run IS_DEV t resetState w es) ∈ id <$> getSettingsTabs IS_DEV t
  ∧ is_Some (ActiveContent IS_DEV t version (run IS_DEV t resetState w es)).
Proof.
  revert w. induction es as [|e es IH]; intros w Hin Hgood; cbn.
  - split; [done | by apply ActiveContent_registry].
  - destruct Hgood as [He Hes]. apply IH; [|done]. by apply step_keeps_registry_tab.
Qed.

End ActiveTab.

(** ** What the events of the settings view leave alone *)

Section Frames.

Import Settings.

Variable IS_DEV : option string.
Variable t : string → string.
Variable resetState : ResetStateRequest → Js.Settled.

Local Abbreviation step := (Settings.step IS_DEV t resetState).
Local Abbreviation run := (Settings.run IS_DEV t resetState).

Lemma run_cons (w : World) (e : Event) (es : list Event) :
  run w (e :: es) = run (step w e) es.
Proof. reflexivity. Qed.

(** A property of the state that every event keeps holds after any run. *)
Lemma run_invariant (P : World → Prop) :
  (∀ w e, P w → P (step w e)) → ∀ es w, P w → P (run w es).
Proof.
  intros Hstep es. induction es as [|e es IH]; intros w HP; cbn; [done|].
  by apply IH, Hstep.
Qed.

(** What the timers of a tick do to the page. *)
Lemma tick_document (w : World) :
  document (tick w) =
    foldl (λ doc element, alter (insert "backgroundColor" "transparent") element doc)
      (document w)
      (filter (λ tm : nat * string, (tm.1 ≤ S (clock w))%nat) (timeouts w)).*2.
Proof.
  unfold tick. rewrite foldl_clear_highlight. cbn.
  destruct (checkCompactMode w) as [[deadline width]|]; [|done].
  by case_bool_decide.
Qed.

Lemma tick_timeouts (w : World) :
  timeouts (tick w) = filter (λ tm : nat * string, ¬ (tm.1 ≤ S (clock w))%nat) (timeouts w).
Proof.
  unfold tick. rewrite foldl_clear_highlight. cbn.
  destruct (checkCompactMode w) as [[deadline width]|]; [|done].
  by case_bool_decide.
Qed.

Lemma tick_keeps (w : World) :
  activeTab (tick w) = activeTab w
  ∧ scrolledIntoView (tick w) = scrolledIntoView w
  ∧ animationFrames (tick w) = animationFrames w
  ∧ console (tick w) = console w.
Proof.
  unfold tick. rewrite foldl_clear_highlight. cbn.
  destruct (checkCompactMode w) as [[deadline width]|]; [|done].
  by case_bool_decide.
Qed.

(** Events other than a frame and a tick leave the page, the clock and the
    timers alone. *)
Lemma step_keeps_page (w : World) (e : Event) :
  Page.is_frame e = false → e ≠ Tick →
  document (step w e) = document w
  ∧ scrolledIntoView (step w e) = scrolledIntoView w
  ∧ clock (step w e) = clock w
  ∧ timeouts (step w e) = timeouts w.
Proof.
  intros Hframe Htick. destruct e as [event|tabId|target|entries|g| |]; cbn.
  - destruct (handleMessage_shape IS_DEV t event) as [Hid|[[tabId Hset]|[tabId Hraf]]].
    + by rewrite Hid.
    + by rewrite Hset.
    + by rewrite Hraf.
  - done.
  - unfold targetSection_effect. by destruct (Js.truthy target).
  - by destruct entries.
  - unfold handleResetState. by destruct (resetState _).
  - discriminate.
  - done.
Qed.

Lemma foldl_alter_dom (l : list string) (doc : gmap string (gmap string string)) :
  dom (foldl (λ doc element, alter (insert "backgroundColor" "transparent") element doc)
         doc l) = dom doc.
Proof.
  revert doc. induction l as [|x l IH]; intros doc; cbn; [done|].
  rewrite IH. apply dom_alter_L.
Qed.

Lemma scroll_fallback_dom (w : World) (tabId : string) :
  dom (document (scroll_fallback w tabId)) = dom (document w).
Proof.
  unfold scroll_fallback. destruct (document w !! tabId) as [style|] eqn:Hlook; [|done].
  cbn. rewrite dom_insert_L.
  apply subseteq_union_1_L, singleton_subseteq_l, elem_of_dom. eauto.
Qed.

Lemma foldl_scroll_fallback_dom (l : list string) (w : World) :
  dom (document (foldl scroll_fallback w l)) = dom (document w).
Proof.
  revert w. induction l as [|x l IH]; intros w; cbn; [done|].
  rewrite IH. apply scroll_fallback_dom.
Qed.

Lemma run_keeps_elements_step (w : World) (e : Event) :
  dom (document (step w e)) = dom (document w).
Proof.
  destruct (Page.is_frame e) eqn:Hframe.
  - destruct e; try discriminate. cbn. unfold frame.
    by rewrite foldl_scroll_fallback_dom.
  - assert (Hcase : e = Tick ∨ e ≠ Tick) by (destruct e; (by left) || (by right)).
    destruct Hcase as [->|Hne].
    + cbn. rewrite tick_document. apply foldl_alter_dom.
    + by destruct (step_keeps_page w e Hframe Hne) as (-> & _).
Qed.






(** X13. Only messages, tab changes and target sections write the active
    tab: resize observations, reset requests, frames and timers leave it
    as it is. *)
Theorem active_tab_written_by_navigation_only (w : World) (es : list Event) :
  Forall (λ e, Page.is_navigation e = false) es →
  activeTab (run w es) = activeTab w.
Proof.
  intros Hes. revert w. induction Hes as [|e es He _ IH]; intros w; [done|].
  rewrite run_cons, IH. destruct e as [event|tabId|target|entries|g| |]; try discriminate; cbn.
  - by destruct entries.
  - unfold handleResetState. by destruct (resetState _).
  - unfold frame.
    match goal with |- context [foldl scroll_fallback ?base ?l] =>
      destruct (foldl_scroll_fallback_frame l base) as (Hr & _)
    end.
    unfold router in Hr. by injection Hr as -> _.
  - by destruct (tick_keeps w) as (-> & _).
Qed.

(** X14. The compact flag is written by the debounce timer only: as long
    as no time passes, no event changes it, a resize observation
    included. *)
Theorem compact_flag_written_by_timer_only (w : World) (es : list Event) :
  Replay.elapsed es = 0%nat →
  isCompactMode (run w es) = isCompactMode w.
Proof.
  revert w. induction es as [|e es IH]; intros w Hnone; [done|].
  rewrite run_cons.
  destruct e as [event|tabId|target|entries|g| |]; try discriminate Hnone;
    rewrite (IH _ Hnone).
  - by destruct (step_keeps_debounce IS_DEV t resetState w (Message event)) as (_ & _ & ->).
  - done.
  - by destruct (step_keeps_debounce IS_DEV t resetState w (TargetSection target))
      as (_ & _ & ->).
  - by destruct entries.
  - by destruct (step_keeps_debounce IS_DEV t resetState w (ResetClicked g))
      as (_ & _ & ->).
  - by destruct (step_keeps_debounce IS_DEV t resetState w Frame) as (_ & _ & ->).
Qed.

End Frames.

(** ** Highlight timers, the debounce window and the console *)

Section Timers.

Import Settings.

Variable IS_DEV : option string.
Variable t : string → string.
Variable resetState : ResetStateRequest → Js.Settled.

Local Abbreviation handleMessage := (Settings.handleMessage IS_DEV t).
Local Abbreviation step := (Settings.step IS_DEV t resetState).
Local Abbreviation run := (Settings.run IS_DEV t resetState).

Lemma tick_clock (w : World) : clock (tick w) = S (clock w).
Proof. by destruct (tick_debounce w) as [-> _]. Qed.

Lemma scroll_fallback_timeouts (w : World) (tabId : string) (tm : nat * string) :
  tm ∈ timeouts (scroll_fallback w tabId) →
  tm ∈ timeouts w ∨ tm = (clock w + 1200, tabId).
Proof.
  unfold scroll_fallback. destruct (document w !! tabId) as [style|]; [|by left].
  cbn. rewrite elem_of_app, list_elem_of_singleton. done.
Qed.

Lemma foldl_scroll_fallback_timeouts (l : list string) (w : World) (tm : nat * string) :
  tm ∈ timeouts (foldl scroll_fallback w l) →
  tm ∈ timeouts w ∨ tm.1 = clock w + 1200.
Proof.
  revert w. induction l as [|x l IH]; intros w Hin; cbn in Hin; [by left|].
  apply IH in Hin as [Hin|Hnew].
  - apply scroll_fallback_timeouts in Hin as [?|Heq]; [by left|]. right. by rewrite Heq.
  - right. by destruct (scroll_fallback_frame w x) as (_ & <- & _).
Qed.



(** *** Clearing the highlight *)

Lemma foldl_alter_cleared (l : list string) (doc : gmap string (gmap string string))
  (element : string) :
  doc !! element ≫= (.!! "backgroundColor") = Some "transparent" →
  foldl (λ doc element, alter (insert "backgroundColor" "transparent") element doc)
    doc l !! element ≫= (.!! "backgroundColor") = Some "transparent".
Proof.
  revert doc. induction l as [|x l IH]; intros doc Hclear; cbn; [done|].
  apply IH. destruct (decide (x = element)) as [->|Hne].
  - rewrite lookup_alter_eq. destruct (doc !! element) as [style|]; [|done].
    cbn. by rewrite lookup_insert_eq.
  - by rewrite lookup_alter_ne.
Qed.

Lemma foldl_alter_clears (l : list string) (doc : gmap string (gmap string string))
  (element : string) :
  element ∈ l → is_Some (doc !! element) →
  foldl (λ doc element, alter (insert "backgroundColor" "transparent") element doc)
    doc l !! element ≫= (.!! "backgroundColor") = Some "transparent".
Proof.
  revert doc. induction l as [|x l IH]; intros doc Hin [style Hstyle].
  - by apply elem_of_nil in Hin.
  - cbn. destruct (decide (x = element)) as [->|Hne].
    + apply foldl_alter_cleared. rewrite lookup_alter_eq, Hstyle. cbn.
      by rewrite lookup_insert_eq.
    + apply elem_of_cons in Hin as [?|Hin]; [done|].
      apply IH; [done|]. rewrite lookup_alter_ne by done. by exists style.
Qed.

Lemma foldl_alter_untouched (l : list string) (doc : gmap string (gmap string string))
  (element : string) :
  element ∉ l →
  foldl (λ doc element, alter (insert "backgroundColor" "transparent") element doc)
    doc l !! element = doc !! element.
Proof.
  revert doc. induction l as [|x l IH]; intros doc Hnotin; cbn; [done|].
  apply not_elem_of_cons in Hnotin as [Hne Hnotin].
  rewrite IH by done. by rewrite lookup_alter_ne.
Qed.

Lemma step_keeps_element (w : World) (e : Event) (element : string) :
  is_Some (document w !! element) → is_Some (document (step w e) !! element).
Proof.
  rewrite <- !elem_of_dom.
  by rewrite <- (run_keeps_elements_step IS_DEV t resetState w e).
Qed.

(** A pending timer clears the highlight of its element within the time it
    has left, whatever happens in between, if no frame re-applies it. *)
Lemma highlight_cleared_by_timer (element : string) (es : list Event) :
  ∀ (w : World) (k : nat),
    is_Some (document w !! element) →
    Page.style_of w element "backgroundColor" = Some "transparent"
    ∨ ((1 ≤ k)%nat ∧ ∃ deadline,
         (deadline, element) ∈ timeouts w ∧ (deadline ≤ clock w + k)%nat) →
    Forall (λ e, Page.is_frame e = false) es →
    (k ≤ Replay.elapsed es)%nat →
    Page.style_of (run w es) element "backgroundColor" = Some "transparent".
Proof.
  induction es as [|e es IH]; intros w k Hel Hinv Hframes Hticks.
  - cbn in Hticks. destruct Hinv as [?|[? _]]; [done | lia].
  - apply Forall_cons in Hframes as [He Hframes].
    assert (Hcase : e = Tick ∨ e ≠ Tick) by (destruct e; (by left) || (by right)).
    destruct Hcase as [->|Hne].
    + change (Replay.elapsed (Tick :: es)) with (S (Replay.elapsed es)) in Hticks.
      apply (IH (tick w) (k - 1)); [by apply (step_keeps_element w Tick)| |done|lia].
      unfold Page.style_of. rewrite tick_document, tick_timeouts, tick_clock.
      destruct Hinv as [Hclear|(Hk & deadline & Hin & Hdue)].
      * left. by apply foldl_alter_cleared.
      * destruct (decide (deadline ≤ S (clock w))%nat) as [Hnow|Hlater].
        -- left. apply foldl_alter_clears; [|done].
           apply list_elem_of_fmap. exists (deadline, element). split; [done|].
           by apply list_elem_of_filter.
        -- right. split; [lia|]. exists deadline. split; [|lia].
           by apply list_elem_of_filter.
    + assert (Hel' : Replay.elapsed (e :: es) = Replay.elapsed es) by (by destruct e).
      rewrite Hel' in Hticks.
      destruct (step_keeps_page IS_DEV t resetState w e He Hne) as (Hd & _ & Hc & Ht).
      apply (IH (step w e) k); [by apply step_keeps_element| |done|done].
      unfold Page.style_of. by rewrite Hd, Hc, Ht.
Qed.

(** The highlight of an element stays while its timers are not due and no
    frame runs. *)
Lemma highlight_kept_until_timer (element colour : string) (es : list Event) :
  ∀ (w : World) (k : nat),
    Page.style_of w element "backgroundColor" = Some colour →
    (∀ deadline, (deadline, element) ∈ timeouts w → (clock w + k < deadline)%nat) →
    Forall (λ e, Page.is_frame e = false) es →
    (Replay.elapsed es ≤ k)%nat →
    Page.style_of (run w es) element "backgroundColor" = Some colour.
Proof.
  induction es as [|e es IH]; intros w k Hcolour Htimers Hframes Hticks; [done|].
  apply Forall_cons in Hframes as [He Hframes].
  assert (Hcase : e = Tick ∨ e ≠ Tick) by (destruct e; (by left) || (by right)).
  destruct Hcase as [->|Hne].
  - change (Replay.elapsed (Tick :: es)) with (S (Replay.elapsed es)) in Hticks.
    apply (IH (tick w) (k - 1)); [| |done|lia].
    + unfold Page.style_of. rewrite tick_document, foldl_alter_untouched; [done|].
      intros Hin. apply list_elem_of_fmap in Hin as ([deadline x] & Hx & Hin).
      cbn in Hx. subst x. apply list_elem_of_filter in Hin as [Hdue Hin]. cbn in Hdue.
      apply Htimers in Hin. lia.
    + intros deadline Hin. rewrite tick_timeouts in Hin. rewrite tick_clock.
      apply list_elem_of_filter in Hin as [_ Hin]. apply Htimers in Hin. lia.
  - assert (Hel' : Replay.elapsed (e :: es) = Replay.elapsed es) by (by destruct e).
    rewrite Hel' in Hticks.
    destruct (step_keeps_page IS_DEV t resetState w e He Hne) as (Hd & _ & Hc & Ht).
    apply (IH (step w e) k); [| |done|done].
    + unfold Page.style_of. by rewrite Hd.
    + intros deadline Hin. rewrite Hc. rewrite Ht in Hin. by apply Htimers.
Qed.

(** What the frame after a navigate message to an anchor leaves behind. *)
Lemma frame_after_anchor_message (w : World) (target : string) :
  Js.truthy (Some target) = true →
  (target ∉ id <$> getSettingsTabs IS_DEV t) →
  is_Some (document w !! target) →
  let w1 := frame (handleMessage (navigate target) w) in
  scrolledIntoView w1 = Some target
  ∧ Page.style_of w1 target "backgroundColor"
    = Some "var(--vscode-textPreformat-background)"
  ∧ Page.style_of w1 target "transition" = Some "background-color 0.5s ease"
  ∧ clock w1 = clock w
  ∧ (clock w + 1200, target) ∈ timeouts w1
  ∧ (∀ deadline, (deadline, target) ∈ timeouts w1 →
       (deadline, target) ∈ timeouts w ∨ deadline = clock w + 1200).
Proof.
  intros Htruthy Hunknown Hanchor w1. subst w1.
  rewrite handleMessage_navigate, Htruthy. cbn [negb].
  destruct (existsb (λ tab, bool_decide (id tab = target)) (SETTINGS_TABS IS_DEV t))
    eqn:Hex; [by apply existsb_registry in Hex|].
  unfold frame, requestAnimationFrame. cbn [animationFrames activeTab isCompactMode
    document scrolledIntoView clock timeouts checkCompactMode console].
  rewrite foldl_app. cbn [foldl].
  match goal with |- context [foldl scroll_fallback ?base (animationFrames w)] =>
    pose proof (foldl_scroll_fallback_frame (animationFrames w) base)
      as (_ & Hclock & _);
    pose proof (λ tm, foldl_scroll_fallback_timeouts (animationFrames w) base tm)
      as Htimers;
    pose proof (foldl_scroll_fallback_dom (animationFrames w) base) as Hdom;
    remember (foldl scroll_fallback base (animationFrames w)) as w0 eqn:Hw0
  end.
  clear Hw0. cbn in Hclock, Htimers, Hdom.
  assert (Hsome : is_Some (document w0 !! target))
    by (rewrite <- elem_of_dom, Hdom; by apply elem_of_dom).
  destruct Hsome as [style Hstyle].
  rewrite (scroll_fallback_present w0 target style Hstyle).
  unfold Page.style_of. cbn. rewrite !lookup_insert_eq. cbn.
  rewrite lookup_insert_eq, lookup_insert_ne, lookup_insert_eq by done.
  repeat split; try done.
  - rewrite Hclock. apply elem_of_app. right. apply list_elem_of_here.
  - intros deadline Hin. apply elem_of_app in Hin as [Hin|Hin].
    + apply Htimers in Hin as [?|?]; [by left | by right].
    + apply list_elem_of_singleton in Hin. injection Hin as ->. right. by rewrite Hclock.
Qed.

(** X16. The highlight decays: after a navigate message to an element of
    the page (an id that is no section) the next frame scrolls to the
    element and highlights it, and once 1200 ms have passed without another
    frame its background colour is ["transparent"], whatever else happened
    in between. *)
Theorem highlight_decays (w : World) (target : string) (es : list Event) :
  Js.truthy (Some target) = true →
  (target ∉ id <$> getSettingsTabs IS_DEV t) →
  is_Some (document w !! target) →
  Forall (λ e, Page.is_frame e = false) es →
  (1200 ≤ Replay.elapsed es)%nat →
  let w1 := frame (handleMessage (navigate target) w) in
  scrolledIntoView w1 = Some target
  ∧ Page.style_of w1 target "backgroundColor"
    = Some "var(--vscode-textPreformat-background)"
  ∧ Page.style_of w1 target "transition" = Some "background-color 0.5s ease"
  ∧ Page.style_of (run w1 es) target "backgroundColor" = Some "transparent".
Proof.
  intros Htruthy Hunknown Hanchor Hframes Hticks w1.
  destruct (frame_after_anchor_message w target Htruthy Hunknown Hanchor)
    as (Hscroll & Hbg & Htr & Hclock & Hin & _).
  fold w1 in Hscroll, Hbg, Htr, Hclock, Hin.
  split; [done|]. split; [done|]. split; [done|].
  apply (highlight_cleared_by_timer target es w1 1200); [|
    right; split; [lia|]; exists (clock w + 1200); split; [done|lia] |done|done].
  unfold Page.style_of in Hbg.
  destruct (document w1 !! target); [by eexists | done].
Qed.

(** X17. The highlight lasts: if no timer was pending for the element
    before the message, the highlight the frame applies is still there at
    every point of the following 1199 ms, as long as no other frame
    runs. *)
Theorem highlight_lasts (w : World) (target : string) (es : list Event) :
  Js.truthy (Some target) = true →
  (target ∉ id <$> getSettingsTabs IS_DEV t) →
  is_Some (document w !! target) →
  (∀ deadline, (deadline, target) ∉ timeouts w) →
  Forall (λ e, Page.is_frame e = false) es →
  (Replay.elapsed es < 1200)%nat →
  Page.style_of (run (frame (handleMessage (navigate target) w)) es) target "backgroundColor"
  = Some "var(--vscode-textPreformat-background)".
Proof.
  intros Htruthy Hunknown Hanchor Hfresh Hframes Hticks.
  destruct (frame_after_anchor_message w target Htruthy Hunknown Hanchor)
    as (_ & Hbg & _ & Hclock & _ & Htimers).
  apply (highlight_kept_until_timer target _ es _ 1199); [done| |done|lia].
  intros deadline Hin. apply Htimers in Hin as [Hin| ->].
  - by apply Hfresh in Hin.
  - rewrite Hclock. lia.
Qed.

(** *** The debounce window *)

Lemma compact_flag_held (es : list Event) :
  ∀ (w : World) (k deadline : nat) (width : Q),
    checkCompactMode w = Some (deadline, width) →
    (clock w + k < deadline)%nat →
    Forall (λ e, Replay.is_resize e = false) es →
    (Replay.elapsed es ≤ k)%nat →
    isCompactMode (run w es) = isCompactMode w.
Proof.
  induction es as [|e es IH]; intros w k deadline width Hpending Hlater Hquiet Hticks;
    [done|].
  apply Forall_cons in Hquiet as [He Hquiet].
  assert (Hcase : e = Tick ∨ e ≠ Tick) by (destruct e; (by left) || (by right)).
  destruct Hcase as [->|Hne].
  - change (Replay.elapsed (Tick :: es)) with (S (Replay.elapsed es)) in Hticks.
    destruct (tick_debounce w) as [Hclock Htick]. rewrite Hpending in Htick.
    rewrite bool_decide_eq_false_2 in Htick by lia. destruct Htick as [Hp Hm].
    change (run w (Tick :: es)) with (run (tick w) es).
    rewrite (IH (tick w) (k - 1) deadline width); [done|done| |done|lia].
    rewrite Hclock. lia.
  - assert (Hel' : Replay.elapsed (e :: es) = Replay.elapsed es) by (by destruct e).
    rewrite Hel' in Hticks.
    destruct (step_keeps_debounce IS_DEV t resetState w e Hne He) as (Hc & Hp & Hm).
    change (run w (e :: es)) with (run (step w e) es).
    rewrite (IH (step w e) k deadline width); [done| | |done|done].
    + by rewrite Hp.
    + by rewrite Hc.
Qed.

(** X18. The debounce holds the update back: for the first 99 ms after an
    observation the compact flag keeps the value it had, whatever the
    observed width and whatever other events arrive. *)
Theorem compact_flag_unchanged_within_debounce
  (w : World) (width : Q) (others : list Q) (es : list Event) :
  Forall (λ e, Replay.is_resize e = false) es →
  (Replay.elapsed es < 100)%nat →
  isCompactMode (run (step w (Resize (width :: others))) es) = isCompactMode w.
Proof.
  intros Hquiet Hticks.
  rewrite (compact_flag_held es _ 99 (clock w + 100) width); [done|done| |done|lia].
  cbn. lia.
Qed.

(** *** The console *)



End Timers.

(** ** The welcome view *)

Section WelcomeProperties.

Import Welcome WelcomeUi.

Variable accountLoginClicked : EmptyRequest → Js.Settled.
Variable setWelcomeViewCompleted : BooleanRequest → Js.Settled.

Local Abbreviation step := (WelcomeUi.step accountLoginClicked setWelcomeViewCompleted).
Local Abbreviation run := (WelcomeUi.run accountLoginClicked setWelcomeViewCompleted).

(** The two request handlers write nothing but the console. *)
Lemma handlers_keep_cells (v : View) :
  ui (handleLogin accountLoginClicked v) = ui v
  ∧ ui (handleSubmit setWelcomeViewCompleted v) = ui v.
Proof.
  unfold handleLogin, handleSubmit.
  destruct (accountLoginClicked _), (setWelcomeViewCompleted _); done.
Qed.

Lemma step_showApiOptions (v : View) (e : Event) :
  showApiOptions v = true → showApiOptions (step v e) = true.
Proof.
  intros Hshown. destruct e as [result|b]; cbn; [done|].
  case_bool_decide as Hrendered; [|done].
  destruct (handlers_keep_cells v) as [Hlogin Hsubmit].
  destruct b; cbn.
  - injection Hlogin as _ ->. done.
  - exfalso. unfold buttons in Hrendered. rewrite Hshown in Hrendered. cbn in Hrendered.
    rewrite !elem_of_cons, elem_of_nil in Hrendered.
    destruct Hrendered as [?|[?|[]]]; discriminate.
  - injection Hsubmit as _ ->. done.
Qed.

(** X20. Once the API options are shown they stay shown: the button that
    toggles [showApiOptions] is rendered only while the options are hidden,
    so after any run of validations and clicks the options are still
    shown and that button is not among the rendered ones. *)
Theorem api_options_stay_shown (v : View) (es : list Event) :
  showApiOptions v = true →
  showApiOptions (run v es) = true
  ∧ shows_ApiOptions (run v es) = true
  ∧ (∀ flag, {| button := UseApiKeyButton; disabled := flag |} ∉ buttons (run v es)).
Proof.
  intros Hshown.
  assert (Hrun : showApiOptions (run v es) = true).
  { revert v Hshown. induction es as [|e es IH]; intros v Hshown; [done|].
    apply (IH (step v e)), step_showApiOptions, Hshown. }
  split; [done|]. split; [done|].
  intros flag. unfold buttons. rewrite Hrun. cbn.
  rewrite !elem_of_cons, elem_of_nil. intros [?|[?|[]]]; discriminate.
Qed.

Lemma step_apiErrorMessage (v : View) (b : Button) :
  apiErrorMessage (step v (Click b)) = apiErrorMessage v.
Proof.
  cbn. case_bool_decide; [|done].
  destruct (handlers_keep_cells v) as [Hlogin Hsubmit].
  destruct b; cbn; [by injection Hlogin as -> _ | done | by injection Hsubmit as -> _].
Qed.

Lemma clicks_keep_apiErrorMessage (clicks : list Button) (v : View) :
  apiErrorMessage (run v (Click <$> clicks)) = apiErrorMessage v.
Proof.
  revert v. induction clicks as [|b clicks IH]; intros v; [done|].
  change (apiErrorMessage (run (step v (Click b)) (Click <$> clicks)) = apiErrorMessage v).
  by rewrite IH, step_apiErrorMessage.
Qed.

(** X21. The error the view holds is always the latest validation result:
    no click changes it, so after a validation and any number of clicks
    the "let's go" button is disabled exactly when that validation
    returned a message. *)
Theorem error_message_is_latest_validation
  (v : View) (result : option string) (clicks : list Button) :
  let v' := run (step v (Validated result)) (Click <$> clicks) in
  apiErrorMessage v' = result
  ∧ disableLetsGoButton v' = bool_decide (is_Some result).
Proof.
  intros v'.
  assert (Hmsg : apiErrorMessage v' = result)
    by (subst v'; by rewrite clicks_keep_apiErrorMessage).
  split; [done|]. unfold disableLetsGoButton. by rewrite Hmsg.
Qed.

End WelcomeProperties.

(** ** The further properties at concrete inputs *)

Lemma mount_default_tab_witness :
  let w := Settings.mount None (λ k, k) (Some EmptyString) ∅ 0 in
  Settings.activeTab w = "api-config"
  ∧ Settings.isCompactMode w = true
  ∧ Settings.activeTab w ∈ Settings.item_key <$> Settings.tab_list None (λ k, k) w
  ∧ Settings.element_type <$> Settings.ActiveContent None (λ k, k) "3.0" w
    = Some (Js.Own Settings.ApiConfigurationSection).
Proof.
  apply (mount_default_tab None (λ k, k) "3.0" (Some EmptyString) ∅ 0).
  reflexivity.
Defined.


Lemma handleMessage_ignores_other_messages_witness :
  Settings.handleMessage None (λ k, k)
    {| Settings.data := {| Settings.type := "theme"; Settings.grpc_response := None |} |}
    example_world
  = example_world.
Proof.
  apply (handleMessage_ignores_other_messages None (λ k, k)).
  left. discriminate.
Defined.

Lemma active_tab_stays_in_registry_witness :
  let es := [Settings.TabChange "about"; Settings.Message (Settings.navigate "debug");
             Settings.TargetSection (Some EmptyString); Settings.Frame; Settings.Tick] in
  Settings.activeTab (Settings.run None (λ k, k) accepting_host example_world es)
    ∈ Settings.id <$> Settings.getSettingsTabs None (λ k, k)
  ∧ is_Some (Settings.ActiveContent None (λ k, k) "3.0"
               (Settings.run None (λ k, k) accepting_host example_world es)).
Proof.
  apply (active_tab_stays_in_registry None (λ k, k) "3.0" accepting_host example_world).
  - rewrite elem_of_registry_ids. left. reflexivity.
  - cbn. repeat split.
    + apply (bool_decide_unpack _). vm_compute. reflexivity.
    + left. reflexivity.
Defined.


Lemma active_tab_written_by_navigation_only_witness :
  Settings.activeTab
    (Settings.run None (λ k, k) accepting_host example_world
       [Settings.Resize [480%Q]; Settings.ResetClicked None; Settings.Frame; Settings.Tick])
  = Settings.activeTab example_world.
Proof.
  apply (active_tab_written_by_navigation_only None (λ k, k) accepting_host).
  repeat constructor.
Defined.

Lemma compact_flag_written_by_timer_only_witness :
  Settings.isCompactMode
    (Settings.run None (λ k, k) accepting_host example_world
       [Settings.Resize [600%Q]; Settings.TabChange "about"; Settings.Frame])
  = Settings.isCompactMode example_world.
Proof.
  apply (compact_flag_written_by_timer_only None (λ k, k) accepting_host).
  reflexivity.
Defined.


Lemma highlight_decays_witness :
  let w1 :=
    Settings.frame
      (Settings.handleMessage None (λ k, k) (Settings.navigate "browser-viewport")
         example_world) in
  Settings.scrolledIntoView w1 = Some "browser-viewport"
  ∧ Page.style_of w1 "browser-viewport" "backgroundColor"
    = Some "var(--vscode-textPreformat-background)"
  ∧ Page.style_of w1 "browser-viewport" "transition" = Some "background-color 0.5s ease"
  ∧ Page.style_of
      (Settings.run None (λ k, k) accepting_host w1 (repeat Settings.Tick 1200))
      "browser-viewport" "backgroundColor"
    = Some "transparent".
Proof.
  apply (highlight_decays None (λ k, k) accepting_host example_world "browser-viewport"
           (repeat Settings.Tick 1200)).
  - reflexivity.
  - rewrite elem_of_registry_ids. intros [?|[?|[?|[?|[?|[?|?]]]]]]; discriminate.
  - vm_compute. by eexists.
  - apply Forall_forall. intros e Hin. apply list_elem_of_In, repeat_spec in Hin.
    by subst e.
  - vm_compute. lia.
Defined.

Lemma highlight_lasts_witness :
  Page.style_of
    (Settings.run None (λ k, k) accepting_host
       (Settings.frame
          (Settings.handleMessage None (λ k, k) (Settings.navigate "browser-viewport")
             example_world))
       (repeat Settings.Tick 1199))
    "browser-viewport" "backgroundColor"
  = Some "var(--vscode-textPreformat-background)".
Proof.
  apply (highlight_lasts None (λ k, k) accepting_host example_world "browser-viewport"
           (repeat Settings.Tick 1199)).
  - reflexivity.
  - rewrite elem_of_registry_ids. intros [?|[?|[?|[?|[?|[?|?]]]]]]; discriminate.
  - vm_compute. by eexists.
  - intros deadline Hin. cbn in Hin. by apply elem_of_nil in Hin.
  - apply Forall_forall. intros e Hin. apply list_elem_of_In, repeat_spec in Hin.
    by subst e.
  - vm_compute. lia.
Defined.

Lemma compact_flag_unchanged_within_debounce_witness :
  Settings.isCompactMode
    (Settings.run None (λ k, k) accepting_host
       (Settings.step None (λ k, k) accepting_host example_world (Settings.Resize [600%Q]))
       (repeat Settings.Tick 99))
  = Settings.isCompactMode example_world.
Proof.
  apply (compact_flag_unchanged_within_debounce None (λ k, k) accepting_host
           example_world 600%Q [] (repeat Settings.Tick 99)).
  - apply Forall_forall. intros e Hin. apply list_elem_of_In, repeat_spec in Hin.
    by subst e.
  - vm_compute. lia.
Defined.

Lemma api_options_stay_shown_witness :
  let v := {| Welcome.apiErrorMessage := None; Welcome.showApiOptions := true;
              Welcome.console := [] |} in
  let es := [WelcomeUi.Click WelcomeUi.UseApiKeyButton;
             WelcomeUi.Validated (Some "API key missing");
             WelcomeUi.Click WelcomeUi.LetsGoButton] in
  let v' := WelcomeUi.run (λ _, Js.Fulfilled) (λ _, Js.Fulfilled) v es in
  Welcome.showApiOptions v' = true
  ∧ WelcomeUi.shows_ApiOptions v' = true
  ∧ (∀ flag,
       {| WelcomeUi.button := WelcomeUi.UseApiKeyButton; WelcomeUi.disabled := flag |}
         ∉ WelcomeUi.buttons v').
Proof.
  intros v es v'.
  apply (api_options_stay_shown (λ _, Js.Fulfilled) (λ _, Js.Fulfilled) v es).
  reflexivity.
Defined.

Lemma unknown_tab_renders_nothing_witness :
  let w' := Settings.handleTabChange "appearance" example_world in
  Settings.ActiveContent None (λ k, k) "3.0" w' = None
  ∧ Page.active_items (Settings.tab_list None (λ k, k) w') = [].
Proof.
  apply (unknown_tab_renders_nothing None (λ k, k) "3.0" example_world "appearance").
  - rewrite elem_of_registry_ids. intros [?|[?|[?|[?|[?|[?|?]]]]]]; discriminate.
  - apply (bool_decide_unpack _). vm_compute. exact I.
  - discriminate.
Defined.
